(** * graphql-authorization: a shallow embedding of the authorization wrappers

    Two generations of the wrapper live in the repository and both are
    embedded here:

    - [WithAuthorization] follows [src/withAuthorization.js]: the operation
      name is classified by a regular expression, the request arguments are
      walked against the role's permission mapping, and the data operation
      is reached through a memoising [run] closure;
    - [Authorized] follows the [Authorized] class: a three phase pipeline
      (validate inputs, run the query, validate the response) and a
      memoised [forUser].

    Conventions of the embedding.

    - A JavaScript value is a [jsval]; the parameter is the type of the
      functions a value may hold.  Request data and authorization results
      hold none ([value]); a permission mapping holds policy functions
      ([node]).  Arrays, symbols and NaN are left out.
    - An object is the association list of its own enumerable properties,
      keys pairwise distinct.  Property access sees own properties only:
      what JavaScript inherits from prototypes ([toString], [constructor],
      the [length] of a string) is outside the model.
    - An [async] function is represented by its settlement: [await] is
      sequencing, a rejection is [Throw].  A promise that is stored without
      being awaited is the value [JPromise].
    - Logging ([console.log], [console.info]) has no counterpart. *)

From Stdlib Require Import String Ascii List ZArith Bool Lia DecimalString.
From stdpp Require Import base option gmap strings.
Import ListNotations.

Local Open Scope string_scope.
Local Open Scope list_scope.

(** ** JavaScript values and the lodash helpers the wrappers call *)

Module JS.

Set Warnings "-register-all".

Inductive jsval (F : Type) : Type :=
| JUndefined
| JNull
| JBool (b : bool)
| JNum (n : Z)
| JStr (s : string)
| JObj (fields : list (string * jsval F))
| JPromise (fulfilled : bool) (payload : jsval F)
| JFun (f : F).

Arguments JUndefined {F}.
Arguments JNull {F}.
Arguments JBool {F} b.
Arguments JNum {F} n.
Arguments JStr {F} s.
Arguments JObj {F} fields.
Arguments JPromise {F} fulfilled payload.
Arguments JFun {F} f.

(** Function-free values: request arguments, query responses, results. *)
Definition jvalue : Type := jsval Empty_set.

(** What [throw] and a rejected promise carry.  The message of an
    [AuthorizationError] embeds [JSON.stringify] of the access summary; the
    summary itself is kept instead of its rendering. *)
Inductive error : Type :=
| Error (message : string)
| TypeError (message : string)
| AuthorizationError (detail : jvalue)
| Thrown (reason : jvalue).

Inductive outcome (A : Type) : Type :=
| Return (a : A)
| Throw (e : error).

Arguments Return {A} a.
Arguments Throw {A} e.

Section Values.
Context {F : Type}.

(** [ToBoolean]. *)
Definition truthy (v : jsval F) : bool :=
  match v with
  | JUndefined | JNull => false
  | JBool b => b
  | JNum n => negb (n =? 0)%Z
  | JStr s => negb (String.eqb s "")
  | JObj _ | JPromise _ _ | JFun _ => true
  end.

(** [a && b] *)
Definition js_and (a b : jsval F) : jsval F := if truthy a then b else a.

Definition isBoolean (v : jsval F) : bool :=
  match v with JBool _ => true | _ => false end.

Definition isString (v : jsval F) : bool :=
  match v with JStr _ => true | _ => false end.


Definition isUndefined (v : jsval F) : bool :=
  match v with JUndefined => true | _ => false end.

(** [v == null] *)
Definition nullish (v : jsval F) : bool :=
  match v with JUndefined | JNull => true | _ => false end.

Fixpoint lookup_field {A : Type} (k : string) (fs : list (string * A)) : option A :=
  match fs with
  | [] => None
  | (k', a) :: fs' => if String.eqb k k' then Some a else lookup_field k fs'
  end.

(** The key of the [i]-th character of a string: its decimal numeral. *)
Definition index_key (i : nat) : string :=
  NilEmpty.string_of_uint (Nat.to_uint i).

Fixpoint chars_from (i : nat) (s : string) : list (string * jsval F) :=
  match s with
  | EmptyString => []
  | String c s' => (index_key i, JStr (String c EmptyString)) :: chars_from (S i) s'
  end.

(** Own enumerable string-keyed properties, as [Object.keys] lists them:
    the fields of an object, the characters of a string, nothing else. *)
Definition entries (v : jsval F) : list (string * jsval F) :=
  match v with
  | JObj fs => fs
  | JStr s => chars_from 0 s
  | _ => []
  end.

(** [o[k]] for a non-nullish [o]. *)
Definition prop (o : jsval F) (k : string) : jsval F :=
  match lookup_field k (entries o) with
  | Some v => v
  | None => JUndefined
  end.

(** [k in Object(o)] *)
Definition has_prop (o : jsval F) (k : string) : bool :=
  match lookup_field k (entries o) with
  | Some _ => true
  | None => false
  end.

(** [Object.values(v)]: a [TypeError] on [null] and [undefined]. *)
Definition values_error : error :=
  TypeError "Cannot convert undefined or null to object".

Definition objectValues (v : jsval F) : outcome (list (jsval F)) :=
  if nullish v
  then Throw values_error
  else Return (map snd (entries v)).

Definition is_dot (c : ascii) : bool := Ascii.eqb c ".".

Fixpoint contains_dot (s : string) : bool :=
  match s with
  | EmptyString => false
  | String c s' => is_dot c || contains_dot s'
  end.

(** lodash [stringToPath] on a path without brackets: the pieces between
    the dots. *)
Fixpoint stringToPath (s : string) : list string :=
  match s with
  | EmptyString => [EmptyString]
  | String c s' =>
      if is_dot c then EmptyString :: stringToPath s'
      else match stringToPath s' with
           | h :: t => String c h :: t
           | [] => [String c EmptyString]
           end
  end.

(** lodash [castPath]: a path that is not deep, or that is itself a key of
    the object, is one key. *)
Definition castPath (path : string) (object : jsval F) : list string :=
  if negb (contains_dot path) || has_prop object path
  then [path]
  else stringToPath path.

(** The loop of lodash [baseGet]: it stops at the first nullish object. *)
Fixpoint baseGet (object : jsval F) (path : list string) : jsval F :=
  match path with
  | [] => object
  | k :: rest => if nullish object then JUndefined else baseGet (prop object k) rest
  end.

(** lodash [get(object, path, defaultValue)]. *)
Definition get_default (object : jsval F) (path : string) (defaultValue : jsval F) : jsval F :=
  let result :=
    if nullish object then JUndefined else baseGet object (castPath path object) in
  if isUndefined result then defaultValue else result.

(** lodash [get(object, path)]. *)
Definition get (object : jsval F) (path : string) : jsval F :=
  get_default object path JUndefined.

End Values.

(** [String.prototype.replace(pattern, replacement)] with a string pattern:
    the first occurrence only.  (The replacement patterns introduced by a
    dollar sign are not interpreted; the wrappers replace by the empty
    string.) *)
Fixpoint drop_chars (n : nat) (s : string) : string :=
  match n, s with
  | O, _ => s
  | S n', String _ s' => drop_chars n' s'
  | S _, EmptyString => EmptyString
  end.

(** The names every object inherits from [Object.prototype].  Property
    access in the model does not see them; a statement that depends on a
    lookup finding nothing says so by excluding these names. *)
Definition inheritedName (k : string) : bool :=
  existsb (String.eqb k)
    ["constructor"; "hasOwnProperty"; "isPrototypeOf"; "propertyIsEnumerable";
     "toLocaleString"; "toString"; "valueOf"; "__proto__";
     "__defineGetter__"; "__defineSetter__"; "__lookupGetter__"; "__lookupSetter__"].

(** A dotted path none of whose pieces is an inherited name. *)
Definition ownNames (path : string) : bool :=
  forallb (fun piece => negb (inheritedName piece)) (stringToPath path).

(** [String.prototype.includes] *)
Fixpoint includes (pattern s : string) : bool :=
  String.prefix pattern s ||
  match s with
  | EmptyString => false
  | String _ s' => includes pattern s'
  end.

Fixpoint replace (pattern replacement s : string) : string :=
  if String.prefix pattern s
  then String.append replacement (drop_chars (String.length pattern) s)
  else match s with
       | EmptyString => EmptyString
       | String c s' => String c (replace pattern replacement s')
       end.

End JS.

Import JS.

(** ** [src/withAuthorization.js] *)

Module WithAuthorization.

(** *** [getQueryType] *)

(** The alternatives of
    [matchQueryType = /(create|update|upsert|delete|updateMany|deleteMany)/],
    in the order the expression lists them. *)
Definition matchQueryType : list string :=
  ["create"; "update"; "upsert"; "delete"; "updateMany"; "deleteMany"].

(** The alternatives tried, in order, at the start of [s]. *)
Definition match_here (s : string) : option string :=
  List.find (fun alternative => String.prefix alternative s) matchQueryType.

(** [matchQueryType.exec(s)]: the match at the leftmost position where some
    alternative matches; the result is the index of the match and the text
    of capture group 1. *)
Fixpoint exec (s : string) : option (nat * string) :=
  match match_here s with
  | Some group => Some (O, group)
  | None =>
      match s with
      | EmptyString => None
      | String _ s' =>
          match exec s' with
          | Some (i, group) => Some (S i, group)
          | None => None
          end
      end
  end.

(** No alternative matches at any of the first [n] positions of [s]. *)
Fixpoint no_match_before (n : nat) (s : string) : bool :=
  match n with
  | O => true
  | S n' =>
      match match_here s, s with
      | Some _, _ => false
      | None, EmptyString => true
      | None, String _ s' => no_match_before n' s'
      end
  end.

Definition getQueryType (queryName : string) : outcome string :=
  match exec queryName with
  | Some (_, group) =>
      if negb (String.eqb group "")
      then Return group
      else Throw (Error (String.append "Unknown query type for query named " queryName))
  | None => Throw (Error (String.append "Unknown query type for query named " queryName))
  end.

(** *** [summarizeAuthResult] *)

(** [Array.prototype.reduce(f, init)]; [None] when [f] runs out of fuel. *)
Fixpoint reduce (f : jvalue -> jvalue -> option (outcome jvalue))
    (vs : list jvalue) (acc : jvalue) : option (outcome jvalue) :=
  match vs with
  | [] => Some (Return acc)
  | v :: vs' =>
      match f acc v with
      | Some (Return acc') => reduce f vs' acc'
      | other => other
      end
  end.

(** The local function [traverse = (sum, level) => ...].  The recursion
    follows [Object.values], which is not structural on strings, hence the
    fuel; [None] is an exhausted fuel. *)
Fixpoint traverse (fuel : nat) (sum level : jvalue) : option (outcome jvalue) :=
  match fuel with
  | O => None
  | S fuel' =>
      if isBoolean level
      then Some (Return (js_and sum level))
      else match objectValues level with
           | Throw e => Some (Throw e)
           | Return vs => reduce (traverse fuel') vs sum
           end
  end.

(** [summarizeAuthResult = authResult => traverse(authResult, true)]:
    the result is passed as [sum] and [true] as [level], as the source
    writes the call. *)
Definition summarizeAuthResult (fuel : nat) (authResult : jvalue) : option (outcome jvalue) :=
  traverse fuel authResult (JBool true).

(** *** The per-request state and its monad *)

(** The variable [runResult] of [wrapped] and the number of times the
    data operation has been invoked. *)
Record run_state : Type := {
  runResult : jvalue;
  calls : nat
}.

(** A computation over the request state; [None] is an exhausted fuel. *)
Definition M (A : Type) : Type := run_state -> option (outcome A * run_state).

Definition ret {A : Type} (a : A) : M A := fun st => Some (Return a, st).

Definition throw {A : Type} (e : error) : M A := fun st => Some (Throw e, st).

Definition diverge {A : Type} : M A := fun _ => None.

Definition bind {A B : Type} (m : M A) (k : A -> M B) : M B :=
  fun st =>
    match m st with
    | None => None
    | Some (Throw e, st') => Some (Throw e, st')
    | Some (Return a, st') => k a st'
    end.

Definition lift_outcome {A : Type} (o : outcome A) : M A :=
  match o with
  | Return a => ret a
  | Throw e => throw e
  end.

Definition lift_fuel {A : Type} (o : option (outcome A)) : M A :=
  match o with
  | Some r => lift_outcome r
  | None => diverge
  end.

Notation "'let!' x ':=' m 'in' k" := (bind m (fun x => k))
  (at level 10, x name, m at level 100, k at level 200).

(** A data operation of the binding, [(args, info) => Promise]: its
    settlement, which may depend on how many invocations came before. *)
Definition QueryFunction : Type := jvalue -> string -> nat -> outcome jvalue.

Record Prisma : Type := {
  query : list (string * QueryFunction);
  mutation : list (string * QueryFunction)
}.

(** The third argument of a policy function. *)
Record context : Type := {
  graphqlContext : jvalue;
  user : jvalue;
  prisma : Prisma
}.

(** A policy function [(rootArgs, run, ctx) => ...].  It receives [run] as
    the computation that awaits the handle, and returns what the call
    returns: a boolean, a nested result, or (an [async] policy) a promise. *)
Definition predicate : Type := jvalue -> M jvalue -> context -> M jvalue.

(** A permission mapping: values that may hold policy functions. *)
Definition node : Type := jsval predicate.

(** lodash [mapValues(object, fn)], the callback run entry by entry. *)
Fixpoint mapEntries (fn : jvalue -> string -> M jvalue)
    (es : list (string * jvalue)) : M (list (string * jvalue)) :=
  match es with
  | [] => ret []
  | (key, v) :: es' =>
      let! r := fn v key in
      let! rs := mapEntries fn es' in
      ret ((key, r) :: rs)
  end.

Definition mapValues (object : jvalue) (fn : jvalue -> string -> M jvalue) : M jvalue :=
  let! rs := mapEntries fn (entries object) in
  ret (JObj rs).

Section WrapQuery.

(** [camel] of change-case and the parser behind the [gql] tag are
    external; the parser only matters by whether it throws. *)
Variable camel : string -> string.
Variable gql : string -> outcome unit.

(** [const authMapping = roleAuthMapping(rootAuthMapping, user.role)] *)
Variable authMapping : node.
Variable theUser : jvalue.
Variable thePrisma : Prisma.

Section Wrapped.

Variable queryFunction : QueryFunction.
Variable queryType : string.
Variable resourceName : string.

Definition getAuthResolver (queryPath : string) : node :=
  get_default authMapping
    (String.append resourceName
       (String.append "." (String.append queryType (String.append "." queryPath))))
    (JBool false).

Definition createSubLevelRunFn (path : string) (run : M jvalue) : M jvalue :=
  let! result := run in
  ret (get result path).

(** [levelKey ? `${levelKey}.${key}` : key] *)
Definition absKey (levelKey : option string) (key : string) : string :=
  match levelKey with
  | Some l => if String.eqb l "" then key
              else String.append l (String.append "." key)
  | None => key
  end.

Fixpoint processLevel (fuel : nat) (rootArgs : jvalue) (run : M jvalue)
    (info : string) (ctx : context) (args : jvalue) (levelKey : option string)
    {struct fuel} : M jvalue :=
  match fuel with
  | O => diverge
  | S fuel' =>
      mapValues args (fun value key =>
        let absKey := absKey levelKey key in
        let authResolver := getAuthResolver absKey in
        processPath fuel' rootArgs run info ctx value authResolver absKey)
  end
with processPath (fuel : nat) (rootArgs : jvalue) (run : M jvalue)
    (info : string) (ctx : context) (value : jvalue) (authResolver : node)
    (absoluteKey : string) {struct fuel} : M jvalue :=
  match fuel with
  | O => diverge
  | S fuel' =>
      match authResolver with
      | JObj _ => processLevel fuel' rootArgs run info ctx value (Some absoluteKey)
      | JBool b => ret (JBool b)
      | JStr _ =>
          let subArgs := get rootArgs absoluteKey in
          let subRun := createSubLevelRunFn absoluteKey run in
          processAuth fuel' subArgs subRun info ctx
      | JFun authResolver => authResolver rootArgs run ctx
      | _ => throw (TypeError "authResolver is not a function")
      end
  end
with processAuth (fuel : nat) (rootArgs : jvalue) (run : M jvalue)
    (info : string) (ctx : context) {struct fuel} : M jvalue :=
  match fuel with
  | O => diverge
  | S fuel' =>
      let! _ := lift_outcome (gql info) in
      processLevel fuel' rootArgs run info ctx rootArgs None
  end.

(** The closure [run] of [wrapped]. *)
Definition run (args : jvalue) (info : string) : M jvalue :=
  fun st =>
    if negb (truthy (runResult st))
    then match queryFunction args info (calls st) with
         | Return r => Some (Return r, {| runResult := r; calls := S (calls st) |})
         | Throw e => Some (Throw e, {| runResult := runResult st; calls := S (calls st) |})
         end
    else Some (Return (runResult st), st).

Definition wrapped (fuel : nat) (args : jvalue) (info : string) (ctx : jvalue) : M jvalue :=
  let! authResult := processAuth fuel args (run args info) info
                  {| graphqlContext := ctx; user := theUser; prisma := thePrisma |} in
  let! isAuthorized := lift_fuel (summarizeAuthResult fuel authResult) in
  if negb (truthy isAuthorized)
  then throw (AuthorizationError authResult)
  else run args info.

End Wrapped.

(** A request starts with [runResult] undefined and no invocation made. *)
Definition fresh : run_state := {| runResult := JUndefined; calls := 0 |}.

Definition WrappedQueryFunction : Type := nat -> jvalue -> string -> jvalue -> M jvalue.

(** [wrapQuery]: the classification happens when the operation is wrapped,
    before any request. *)
Definition wrapQuery (queryFunction : QueryFunction) (isRead : bool)
    (queryName : string) : outcome WrappedQueryFunction :=
  match (if isRead then Return "get" else getQueryType queryName) with
  | Throw e => Throw e
  | Return queryType =>
      let resourceName := camel (replace queryType "" queryName) in
      Return (wrapped queryFunction queryType resourceName)
  end.

Fixpoint wrapAll (isRead : bool) (fns : list (string * QueryFunction))
    : outcome (list (string * WrappedQueryFunction)) :=
  match fns with
  | [] => Return []
  | (key, fn) :: fns' =>
      match wrapQuery fn isRead key with
      | Throw e => Throw e
      | Return w =>
          match wrapAll isRead fns' with
          | Throw e => Throw e
          | Return ws => Return ((key, w) :: ws)
          end
      end
  end.

Record AuthorizedPrisma : Type := {
  authorized_query : list (string * WrappedQueryFunction);
  authorized_mutation : list (string * WrappedQueryFunction)
}.

(** The body of [user => { ... }]: every query and every mutation of the
    binding is wrapped. *)
Definition withAuthorization : outcome AuthorizedPrisma :=
  match wrapAll true (query thePrisma) with
  | Throw e => Throw e
  | Return q =>
      match wrapAll false (mutation thePrisma) with
      | Throw e => Throw e
      | Return m => Return {| authorized_query := q; authorized_mutation := m |}
      end
  end.

End WrapQuery.

End WithAuthorization.

(** ** The [Authorized] class *)

Module Authorized.

(** The cache lodash [memoize] keeps ([memoize.Cache]): the methods the
    wrappers call, and what they rely on.  The class the source installs,
    [UserRoleWeakMap], is defined outside the files embedded here; the
    development holds for every cache with this interface. *)
Class MemoCache (K V C : Type) : Type := {
  cache_new : C;
  cache_get : K -> C -> option V;
  cache_set : K -> V -> C -> C;
  cache_clear : C -> C;
  cache_get_new : forall k, cache_get k cache_new = None;
  cache_get_set : forall k v c, cache_get k (cache_set k v c) = Some v;
  cache_get_clear : forall k c, cache_get k (cache_clear c) = None
}.

(** A principal: the object handed to [forUser].  The memoisation is by
    object identity, which [identity] stands for. *)
Record User : Type := {
  identity : positive;
  profile : jvalue
}.

(** A cache keyed by the identity of the principal. *)
#[global] Instance gmap_cache (V : Type) : MemoCache User V (gmap positive V) := {|
  cache_new := ∅;
  cache_get k c := c !! identity k;
  cache_set k v c := <[identity k := v]> c;
  cache_clear _ := ∅;
  cache_get_new k := lookup_empty (identity k);
  cache_get_set k v c := lookup_insert_eq c (identity k) v;
  cache_get_clear k _ := lookup_empty (identity k)
|}.

(** ['Query' | 'Mutation'] *)
Inductive RootType : Type := Query | Mutation.

Definition rootType_name (rootType : RootType) : string :=
  match rootType with
  | Query => "Query"
  | Mutation => "Mutation"
  end.

Definition QueryFunction : Type := jvalue -> string -> nat -> outcome jvalue.

Record Prisma : Type := {
  query : list (string * QueryFunction);
  mutation : list (string * QueryFunction)
}.

Record AuthContext : Type := {
  user : User;
  graphqlContext : jvalue;
  prisma : Prisma
}.

Record QueryRootData : Type := {
  rootFieldName : string;
  rootTypeName : string;
  inputs : jvalue
}.

(** The argument of [authorizer.authorize]. *)
Record AuthorizeArgs : Type := {
  typeName : jvalue;
  authType : string;
  data : jvalue;
  context : AuthContext;
  rootData : QueryRootData
}.

Record WithAuthorizationOptions : Type := {
  autoGenerateDerivedTypePermissions : option bool
}.

Definition DEFAULT_OPTIONS : WithAuthorizationOptions :=
  {| autoGenerateDerivedTypePermissions := Some true |}.

(** [createAuthError] *)
Definition createAuthError (result : jvalue) : error := AuthorizationError result.

(** One request through a wrapped operation: the state is the number of
    times [queryFunction] has been invoked. *)
Definition P (A : Type) : Type := nat -> outcome A * nat.

Definition ret {A : Type} (a : A) : P A := fun n => (Return a, n).

Definition throw {A : Type} (e : error) : P A := fun n => (Throw e, n).

Definition bind {A B : Type} (m : P A) (k : A -> P B) : P B :=
  fun n =>
    match m n with
    | (Throw e, n') => (Throw e, n')
    | (Return a, n') => k a n'
    end.

(** [await] of a promise that is already settled. *)
Definition await {A : Type} (o : outcome A) : P A :=
  match o with
  | Return a => ret a
  | Throw e => throw e
  end.

(** [await queryFunction(inputs, info)] *)
Definition invoke (queryFunction : QueryFunction) (inputs : jvalue) (info : string) : P jvalue :=
  fun n => (queryFunction inputs info n, S n).

Notation "'let!' x ':=' m 'in' k" := (bind m (fun x => k))
  (at level 10, x name, m at level 100, k at level 200).

Section Class.

(** The permission map and the type definitions are only handed on to the
    collaborators below. *)
Variable AuthMapping : Type.
Variable DocumentNode : Type.
Variable Cache : Type.

(** What [forUser] returns is determined by the principal and by the map
    its [Authorizer] was constructed with. *)
Record Compiled : Type := {
  compiledFor : User;
  completePermissionMap : AuthMapping
}.

Context {memo : MemoCache User Compiled Cache}.

(** External collaborators: change-case, [./Authorizer] and [./utils]. *)
Variable pascal : string -> string.
Variable authorize : AuthMapping -> AuthorizeArgs -> outcome jvalue.
Variable summarizeAuthResult : jvalue -> outcome jvalue.
Variable mapPromiseValues : list (string * outcome jvalue) -> outcome jvalue.
Variable annotateAuthResultWithInputTypes : jvalue -> jvalue -> jvalue.
Variable getQueryTypes_input : DocumentNode -> RootType -> string -> outcome jvalue.
Variable getQueryTypes_response : DocumentNode -> RootType -> string -> outcome jvalue.
Variable applyDerivedTypePermissions : DocumentNode -> AuthMapping -> AuthMapping.

(** The fields of an instance, and the cache of its [forUser]. *)
Record Authorized : Type := {
  this_prisma : Prisma;
  typeDefs : DocumentNode;
  permissionMap : AuthMapping;
  options : WithAuthorizationOptions;
  forUser_cache : Cache
}.

(** The constructor, the type definitions already resolved. *)
Definition new (prisma : Prisma) (typeDefs : DocumentNode)
    (permissionMap : AuthMapping) (options : option WithAuthorizationOptions) : Authorized :=
  {| this_prisma := prisma;
     typeDefs := typeDefs;
     permissionMap := permissionMap;
     options := match options with Some o => o | None => DEFAULT_OPTIONS end;
     forUser_cache := cache_new |}.

Definition setPermissionMap (permissionMap : AuthMapping) (this : Authorized) : Authorized :=
  {| this_prisma := this_prisma this;
     typeDefs := typeDefs this;
     permissionMap := permissionMap;
     options := options this;
     forUser_cache := cache_clear (forUser_cache this) |}.

(** The function [forUser] memoises, up to the construction of the
    [Authorizer]. *)
Definition compile (this : Authorized) (user : User) : Compiled :=
  let autoGenerate :=
    match autoGenerateDerivedTypePermissions (options this) with
    | Some b => b
    | None => true
    end in
  {| compiledFor := user;
     completePermissionMap :=
       if autoGenerate
       then applyDerivedTypePermissions (typeDefs this) (permissionMap this)
       else permissionMap this |}.

(** [forUser = memoize(...)] *)
Definition forUser (user : User) (this : Authorized) : Compiled * Authorized :=
  match cache_get user (forUser_cache this) with
  | Some result => (result, this)
  | None =>
      let result := compile this user in
      (result,
       {| this_prisma := this_prisma this;
          typeDefs := typeDefs this;
          permissionMap := permissionMap this;
          options := options this;
          forUser_cache := cache_set user result (forUser_cache this) |})
  end.

Section Request.

Variable this : Authorized.
Variable compiled : Compiled.
Variable queryFunction : QueryFunction.
Variable rootType : RootType.
Variable queryName : string.

Definition isRead : bool :=
  match rootType with Query => true | Mutation => false end.

(** The [mapValues] of phase 1: one [authorize] call per input key. *)
Fixpoint authorizeInputs (inputTypes : jvalue) (context : AuthContext)
    (rootData : QueryRootData) (es : list (string * jvalue))
    : outcome (list (string * outcome jvalue)) :=
  match es with
  | [] => Return []
  | (key, value) :: es' =>
      if nullish inputTypes
      then Throw (TypeError "Cannot read properties of undefined")
      else
        let result :=
          authorize (completePermissionMap compiled)
            {| typeName := prop inputTypes key;
               authType := "write";
               data := value;
               context := context;
               rootData := rootData |} in
        match authorizeInputs inputTypes context rootData es' with
        | Throw e => Throw e
        | Return results => Return ((key, result) :: results)
        end
  end.

Definition validateInputs (inputTypes : jvalue) (context : AuthContext)
    (rootData : QueryRootData) (inputs : jvalue) : outcome jvalue :=
  match authorizeInputs inputTypes context rootData (entries inputs) with
  | Throw e => Throw e
  | Return results => mapPromiseValues results
  end.

Definition validateResponse (responseType : jvalue) (context : AuthContext)
    (rootData : QueryRootData) (queryResponse : jvalue) : outcome jvalue :=
  authorize (completePermissionMap compiled)
    {| typeName := responseType;
       authType := "read";
       data := queryResponse;
       context := context;
       rootData := rootData |}.

(** Phase 1, for mutations only. *)
Definition phase1 (inputTypes : jvalue) (context : AuthContext)
    (rootData : QueryRootData) (inputs : jvalue) : P unit :=
  if negb isRead
  then
    let! inputValidationResult := await (validateInputs inputTypes context rootData inputs) in
    let! areInputsValid := await (summarizeAuthResult inputValidationResult) in
    if negb (truthy areInputsValid)
    then throw (createAuthError
                  (annotateAuthResultWithInputTypes inputValidationResult inputTypes))
    else ret tt
  else ret tt.

(** The function [wrapQuery] returns. *)
Definition wrapQuery (inputs : jvalue) (info : string) (ctx : jvalue) : P jvalue :=
  let context :=
    {| user := compiledFor compiled; graphqlContext := ctx; prisma := this_prisma this |} in
  let! inputTypes := await (getQueryTypes_input (typeDefs this) rootType queryName) in
  let! responseType := await (getQueryTypes_response (typeDefs this) rootType queryName) in
  let rootData :=
    {| rootFieldName := queryName;
       rootTypeName := pascal (rootType_name rootType);
       inputs := inputs |} in
  let! _ := phase1 inputTypes context rootData inputs in
  let! queryResponse := invoke queryFunction inputs info in
  let! responseValidationResult :=
    await (validateResponse responseType context rootData queryResponse) in
  let! isResponseValid := await (summarizeAuthResult responseValidationResult) in
  if negb (truthy isResponseValid)
  then throw (createAuthError responseValidationResult)
  else ret queryResponse.

End Request.

End Class.

Arguments completePermissionMap {AuthMapping} c.
Arguments compiledFor {AuthMapping} c.
Arguments typeDefs {AuthMapping DocumentNode Cache} a.
Arguments permissionMap {AuthMapping DocumentNode Cache} a.
Arguments options {AuthMapping DocumentNode Cache} a.
Arguments this_prisma {AuthMapping DocumentNode Cache} a.
Arguments forUser_cache {AuthMapping DocumentNode Cache} a.
Arguments new {AuthMapping DocumentNode Cache memo} prisma typeDefs permissionMap options.
Arguments setPermissionMap {AuthMapping DocumentNode Cache memo} permissionMap this.
Arguments compile {AuthMapping DocumentNode Cache} applyDerivedTypePermissions this user.
Arguments forUser {AuthMapping DocumentNode Cache memo} applyDerivedTypePermissions user this.
Arguments validateInputs {AuthMapping} authorize mapPromiseValues compiled
  inputTypes context rootData inputs.
Arguments validateResponse {AuthMapping} authorize compiled
  responseType context rootData queryResponse.
Arguments phase1 {AuthMapping} authorize summarizeAuthResult mapPromiseValues
  annotateAuthResultWithInputTypes compiled rootType inputTypes context
  rootData inputs _.
Arguments wrapQuery {AuthMapping DocumentNode Cache} pascal authorize
  summarizeAuthResult mapPromiseValues annotateAuthResultWithInputTypes
  getQueryTypes_input getQueryTypes_response this compiled queryFunction
  rootType queryName inputs info ctx _.

End Authorized.

(** ** Sample collaborators, policies and requests

    The inputs at which the properties below are exercised. *)

Module Samples.

Import WithAuthorization.

(** [camel] of change-case leaves a lower-case word as it is; the sample
    resources are named by such words. *)
Definition camel (s : string) : string := s.

(** Every sample selection set parses. *)
Definition gql (info : string) : outcome unit := Return tt.

Definition reader : jvalue := JObj [("role", JStr "USER")].

(** A [post] query that finds the post, and one that finds nothing. *)
Definition thePost : jvalue := JObj [("id", JStr "p1"); ("title", JStr "x")].

Definition post_found : QueryFunction := fun _ _ _ => Return thePost.

Definition post_missing : QueryFunction := fun _ _ _ => Return JNull.

Definition binding : Prisma :=
  {| query := [("post", post_found)]; mutation := [("publish", post_found)] |}.

(** [{ post: { get: { title: true } } }] *)
Definition titleOnly : node :=
  JObj [("post", JObj [("get", JObj [("title", JBool true)])])].

(** [{ post: { get: { author: 'user' } }, user: { get: { name: true } } }] *)
Definition authorIsUser : node :=
  JObj [("post", JObj [("get", JObj [("author", JStr "user")])]);
        ("user", JObj [("get", JObj [("name", JBool true)])])].

(** [async (rootArgs, run, ctx) => { await run(); return true; }] *)
Definition looksAtResult : predicate :=
  fun rootArgs run ctx =>
    let! result := run in
    ret (JPromise true (JBool true)).

(** [async () => false] *)
Definition asyncDeny : predicate :=
  fun rootArgs run ctx => ret (JPromise true (JBool false)).

(** [{ post: { get: { id: looksAtResult } } }] *)
Definition idLooksAtResult : node :=
  JObj [("post", JObj [("get", JObj [("id", JFun looksAtResult)])])].

(** [{ post: { get: { id: asyncDeny } } }] *)
Definition idAsyncDeny : node :=
  JObj [("post", JObj [("get", JObj [("id", JFun asyncDeny)])])].

(** The context [wrapped] builds for a request with an empty GraphQL
    context. *)
Definition ctx : context :=
  {| graphqlContext := JObj []; user := reader; prisma := binding |}.

(** [{ title: "x", secret: "y" }] *)
Definition titleAndSecret : jvalue :=
  JObj [("title", JStr "x"); ("secret", JStr "y")].

(** [{ author: { name: "n" } }] *)
Definition withAuthor : jvalue :=
  JObj [("author", JObj [("name", JStr "n")])].

(** [{ id: "p1" }] *)
Definition byId : jvalue := JObj [("id", JStr "p1")].

End Samples.

(** ** Sample collaborators for the [Authorized] pipeline

    The properties of the pipeline are proved for every choice of the
    collaborators [./Authorizer] and [./utils] provide.  The ones below
    are small instances at which the properties are exercised; they do not
    stand for the code of those modules. *)

Module PipelineSamples.

Import Authorized.

(** A one-level authorizer: the permission map lists the kinds of access
    it grants. *)
Definition Policy : Type := list string.

Definition authorize (policy : Policy) (args : AuthorizeArgs) : outcome jvalue :=
  Return (JBool (existsb (String.eqb (authType args)) policy)).

(** The conjunction of the boolean leaves of a result. *)
Fixpoint allLeaves (result : jvalue) : bool :=
  match result with
  | JBool b => b
  | JObj fields =>
      (fix all (fs : list (string * jvalue)) : bool :=
         match fs with
         | [] => true
         | (_, v) :: fs' => allLeaves v && all fs'
         end) fields
  | _ => true
  end.

Definition summarizeAuthResult (result : jvalue) : outcome jvalue :=
  Return (JBool (allLeaves result)).

(** The object of the settled values, or the first rejection. *)
Fixpoint settleAll (promises : list (string * outcome jvalue))
    : outcome (list (string * jvalue)) :=
  match promises with
  | [] => Return []
  | (key, Throw e) :: _ => Throw e
  | (key, Return v) :: promises' =>
      match settleAll promises' with
      | Throw e => Throw e
      | Return vs => Return ((key, v) :: vs)
      end
  end.

Definition mapPromiseValues (promises : list (string * outcome jvalue)) : outcome jvalue :=
  match settleAll promises with
  | Throw e => Throw e
  | Return vs => Return (JObj vs)
  end.

Definition annotate (result inputTypes : jvalue) : jvalue :=
  JObj [("result", result); ("inputTypes", inputTypes)].

Definition inputTypesOf (typeDefs : unit) (rootType : RootType) (queryName : string)
    : outcome jvalue :=
  Return (JObj [("data", JStr "PostCreateInput")]).

Definition responseTypeOf (typeDefs : unit) (rootType : RootType) (queryName : string)
    : outcome jvalue :=
  Return (JStr "Post").

Definition derive (typeDefs : unit) (policy : Policy) : Policy := policy.

Definition pascal (s : string) : string := s.

Definition created : jvalue := JObj [("id", JStr "p1"); ("title", JStr "x")].

Definition createPost : QueryFunction := fun _ _ _ => Return created.

Definition binding : Prisma :=
  {| query := []; mutation := [("createPost", createPost)] |}.

Definition alice : User :=
  {| identity := 1%positive; profile := JObj [("role", JStr "USER")] |}.

Definition readOnly : Policy := ["read"].

Definition readWrite : Policy := ["read"; "write"].

Definition service (policy : Policy)
    : Authorized Policy unit (gmap positive (Compiled Policy)) :=
  new binding tt policy None.

(** [{ data: { title: "x" } }] *)
Definition newPost : jvalue := JObj [("data", JObj [("title", JStr "x")])].

End PipelineSamples.

(** ** Notions the further properties are stated with *)

Module Notions.

Import WithAuthorization.

(** The pattern occurs at one of the first [n] positions of [s]. *)
Fixpoint occurs_before (pattern : string) (n : nat) (s : string) : bool :=
  match n with
  | O => false
  | S n' =>
      String.prefix pattern s ||
      match s with
      | EmptyString => false
      | String _ s' => occurs_before pattern n' s'
      end
  end.

(** The conjunction of the boolean leaves of a result. *)
Fixpoint conjunction (result : jvalue) : bool :=
  match result with
  | JBool b => b
  | JObj fields => forallb (fun field => conjunction (snd field)) fields
  | _ => true
  end.

(** Results made of objects whose leaves are booleans, numbers or
    promises. *)
Fixpoint verdictTree (result : jvalue) : bool :=
  match result with
  | JBool _ | JNum _ | JPromise _ _ => true
  | JObj fields => forallb (fun field => verdictTree (snd field)) fields
  | _ => false
  end.

Fixpoint depth (result : jvalue) : nat :=
  match result with
  | JObj fields => S (fold_right (fun field d => Nat.max (depth (snd field)) d) 0 fields)
  | _ => 0
  end.

(** A permission mapping that holds no policy function. *)
Fixpoint functionFree (n : node) : bool :=
  match n with
  | JFun _ => false
  | JObj fields => forallb (fun field => functionFree (snd field)) fields
  | _ => true
  end.

(** A settlement [run] does not keep: a rejection or a falsy value. *)
Definition unproductive (o : outcome jvalue) : bool :=
  match o with
  | Return r => negb (truthy r)
  | Throw _ => true
  end.

(** [n] invocations of a handle one after the other, each caller keeping
    the settlement it gets. *)
Fixpoint invocations (n : nat) (handle : M jvalue) (st : run_state)
    : option (list (outcome jvalue) * run_state) :=
  match n with
  | O => Some ([], st)
  | S n' =>
      match handle st with
      | None => None
      | Some (o, st') =>
          match invocations n' handle st' with
          | None => None
          | Some (os, st'') => Some (o :: os, st'')
          end
      end
  end.

(** A parser that rejects the empty selection set. *)
Definition gqlStrict (info : string) : outcome unit :=
  if String.eqb info "" then Throw (Error "Syntax Error: Unexpected <EOF>") else Return tt.

(** A [post] query that resolves to the post with its author. *)
Definition postWithAuthor : jvalue :=
  JObj [("id", JStr "p1");
        ("author", JObj [("name", JStr "n"); ("email", JStr "a@b.com")])].

Definition post_with_author : QueryFunction := fun _ _ _ => Return postWithAuthor.

(** A binding whose mutations all classify. *)
Definition crud : Prisma :=
  {| query := [("post", Samples.post_found)];
     mutation := [("createPost", Samples.post_found);
                  ("deleteManyPosts", Samples.post_found)] |}.

End Notions.

(** ** Further sample collaborators for the [Authorized] pipeline *)

Module PipelineCases.

Import Authorized.

(** An authorizer whose policy evaluation rejects. *)
Definition broken (policy : PipelineSamples.Policy) (args : AuthorizeArgs)
    : outcome jvalue :=
  Throw (Thrown (JStr "policy failed")).

(** A data operation that rejects. *)
Definition unavailable : QueryFunction :=
  fun _ _ _ => Throw (Thrown (JStr "unavailable")).

(** A type lookup that finds no input types. *)
Definition noInputTypes (typeDefs : unit) (rootType : RootType) (queryName : string)
    : outcome jvalue :=
  Return JUndefined.

Definition writeOnly : PipelineSamples.Policy := ["write"].

End PipelineCases.

(** ** Samples for nested policies *)

Module NestedCases.

Import WithAuthorization.

(** [{ post: { get: { author: { email: true } } } }] *)
Definition authorEmail : node :=
  JObj [("post", JObj [("get", JObj [("author", JObj [("email", JBool true)])])])].

(** [{ email: "a@b.com", phone: "1" }] *)
Definition contact : jvalue := JObj [("email", JStr "a@b.com"); ("phone", JStr "1")].

End NestedCases.

(** * Properties *)

(** ** Classification of operation names *)

Section Classification.

Import WithAuthorization.

Lemma prefix_append_l (a b s : string) :
  String.prefix (a +:+ b) s = true -> String.prefix a s = true.
Proof.
  revert s. induction a as [|c a IH]; intros s H.
  - destruct s; reflexivity.
  - destruct s as [|d s]; simpl in *; [discriminate|].
    destruct (Ascii.ascii_dec c d); [eauto | discriminate].
Qed.

Lemma prefix_split (t s : string) :
  String.prefix t s = true -> s = t +:+ drop_chars (String.length t) s.
Proof.
  revert s. induction t as [|c t IH]; intros s H.
  - reflexivity.
  - destruct s as [|d s]; simpl in *; [discriminate|].
    destruct (Ascii.ascii_dec c d) as [->|]; [|discriminate].
    change (String d s = String d (t +:+ drop_chars (String.length t) s)).
    f_equal. auto.
Qed.

Lemma prefix_includes (t s : string) :
  String.prefix t s = true -> includes t s = true.
Proof. intros H. destruct s; simpl in *; rewrite H; reflexivity. Qed.

Lemma prefix_append_self (t suf : string) : String.prefix t (t +:+ suf) = true.
Proof.
  induction t as [|c t IH].
  - destruct (EmptyString +:+ suf); reflexivity.
  - change (String c t +:+ suf) with (String c (t +:+ suf)).
    cbn [String.prefix]. destruct (Ascii.ascii_dec c c); [exact IH|congruence].
Qed.

(** [includes] holds exactly of the names in which the token occurs. *)
Lemma includes_spec (t s : string) :
  includes t s = true <-> exists pre suf, s = pre +:+ t +:+ suf.
Proof.
  split.
  - induction s as [|c s IH]; cbn [includes]; intros H.
    + rewrite orb_false_r in H. exists "", (drop_chars (String.length t) "").
      exact (prefix_split _ _ H).
    + apply orb_true_iff in H as [H|H].
      * exists "", (drop_chars (String.length t) (String c s)).
        exact (prefix_split _ _ H).
      * destruct (IH H) as (pre & suf & ->). exists (String c pre), suf.
        reflexivity.
  - intros (pre & suf & ->). induction pre as [|c pre IH].
    + change ("" +:+ t +:+ suf) with (t +:+ suf).
      apply prefix_includes. apply prefix_append_self.
    + change (String c pre +:+ t +:+ suf) with (String c (pre +:+ t +:+ suf)).
      cbn [includes]. rewrite IH. apply orb_true_r.
Qed.

Lemma match_here_Some (s t : string) :
  match_here s = Some t -> In t matchQueryType /\ String.prefix t s = true.
Proof. intros H. apply List.find_some in H. exact H. Qed.

Lemma match_here_None (s t : string) :
  match_here s = None -> In t matchQueryType -> String.prefix t s = false.
Proof. intros H Hin. exact (List.find_none _ _ H t Hin). Qed.

(** The two long alternatives are shadowed by their own prefixes. *)
Lemma match_here_short (s t : string) :
  match_here s = Some t -> t <> "updateMany" /\ t <> "deleteMany".
Proof.
  unfold match_here, matchQueryType. simpl.
  destruct (String.prefix "create" s); [intros [= <-]; split; discriminate|].
  destruct (String.prefix "update" s) eqn:Hu; [intros [= <-]; split; discriminate|].
  destruct (String.prefix "upsert" s); [intros [= <-]; split; discriminate|].
  destruct (String.prefix "delete" s) eqn:Hd; [intros [= <-]; split; discriminate|].
  destruct (String.prefix "updateMany" s) eqn:Hum.
  { apply (prefix_append_l "update" "Many") in Hum. congruence. }
  destruct (String.prefix "deleteMany" s) eqn:Hdm.
  { apply (prefix_append_l "delete" "Many") in Hdm. congruence. }
  discriminate.
Qed.

Lemma exec_group (s : string) (i : nat) (t : string) :
  exec s = Some (i, t) -> exists s', match_here s' = Some t.
Proof.
  revert i. induction s as [|c s IH]; intros i; simpl.
  - discriminate.
  - destruct (match_here (String c s)) eqn:Hm.
    + intros [= <- <-]. eauto.
    + destruct (exec s) as [[j g]|]; [|discriminate].
      intros [= <- <-]. eauto.
Qed.

Lemma exec_None (s : string) :
  (forall t, In t matchQueryType -> includes t s = false) -> exec s = None.
Proof.
  induction s as [|c s IH]; intros H.
  - reflexivity.
  - simpl. destruct (match_here (String c s)) eqn:Hm.
    + apply match_here_Some in Hm as [Hin Hp].
      apply prefix_includes in Hp. rewrite (H _ Hin) in Hp. discriminate.
    + rewrite IH; [reflexivity|].
      intros t Hin. specialize (H t Hin). simpl in H.
      apply orb_false_iff in H as [_ H]. exact H.
Qed.

(** [exec] finds the leftmost match: an unmatched prefix is skipped. *)
Lemma exec_skip (pre rest : string) :
  no_match_before (String.length pre) (pre +:+ rest) = true ->
  exec (pre +:+ rest) =
  match exec rest with
  | Some (i, t) => Some (String.length pre + i, t)
  | None => None
  end.
Proof.
  induction pre as [|c pre IH]; intros H.
  - change ("" +:+ rest) with rest.
    destruct (exec rest) as [[i t]|]; reflexivity.
  - change (String c pre +:+ rest) with (String c (pre +:+ rest)) in *.
    cbn [String.length no_match_before] in H.
    cbn [String.length exec].
    destruct (match_here (String c (pre +:+ rest))); [discriminate|].
    rewrite (IH H). destruct (exec rest) as [[i t]|]; reflexivity.
Qed.

Lemma replace_skip (t pre rest : string) :
  In t matchQueryType ->
  no_match_before (String.length pre) (pre +:+ rest) = true ->
  replace t "" (pre +:+ rest) = pre +:+ replace t "" rest.
Proof.
  intros Hin. induction pre as [|c pre IH]; intros H.
  - reflexivity.
  - change (String c pre +:+ rest) with (String c (pre +:+ rest)) in *.
    cbn [String.length no_match_before] in H.
    destruct (match_here (String c (pre +:+ rest))) eqn:Hm; [discriminate|].
    pose proof (match_here_None _ _ Hm Hin) as Hp.
    cbn [replace]. rewrite Hp, (IH H). reflexivity.
Qed.

Lemma replace_here (t s : string) :
  String.prefix t s = true ->
  replace t "" s = drop_chars (String.length t) s.
Proof. intros H. destruct s; cbn [replace]; rewrite H; reflexivity. Qed.

(** The match [exec] reports, located in the name. *)
Lemma exec_leftmost (s : string) (i : nat) (t : string) :
  exec s = Some (i, t) ->
  exists pre suf,
    s = pre +:+ t +:+ suf /\ String.length pre = i /\
    In t matchQueryType /\
    no_match_before i s = true /\
    replace t "" s = pre +:+ suf.
Proof.
  revert i. induction s as [|c s IH]; intros i H.
  - discriminate.
  - cbn [exec] in H. destruct (match_here (String c s)) as [g|] eqn:Hm.
    + injection H as <- ->. apply match_here_Some in Hm as [Hin Hp].
      exists "", (drop_chars (String.length t) (String c s)).
      change ("" +:+ ?x) with x.
      repeat split; auto using prefix_split, replace_here.
    + destruct (exec s) as [[j g]|] eqn:He; [|discriminate].
      injection H as <- ->.
      destruct (IH j eq_refl) as (pre & suf & Hs & Hl & Hin & Hn & Hr).
      exists (String c pre), suf. repeat split.
      * rewrite Hs at 1. reflexivity.
      * simpl. f_equal. exact Hl.
      * exact Hin.
      * cbn [no_match_before]. rewrite Hm. exact Hn.
      * cbn [replace]. rewrite (match_here_None _ _ Hm Hin), Hr.
        reflexivity.
Qed.

End Classification.

Section Wrapping.

Import WithAuthorization.

Variable camel : string -> string.
Variable gql : string -> outcome unit.
Variable authMapping : node.
Variable theUser : jvalue.

Lemma getQueryType_unknown (queryName : string) :
  exec queryName = None ->
  getQueryType queryName =
  Throw (Error ("Unknown query type for query named " +:+ queryName)).
Proof. unfold getQueryType. intros ->. reflexivity. Qed.

Lemma getQueryType_Throw (queryName : string) (e : error) :
  getQueryType queryName = Throw e ->
  e = Error ("Unknown query type for query named " +:+ queryName).
Proof.
  unfold getQueryType. destruct (exec queryName) as [[i g]|].
  - destruct (negb (String.eqb g "")); [discriminate|]. intros [= <-]. reflexivity.
  - intros [= <-]. reflexivity.
Qed.

Lemma wrapAll_read (thePrisma : Prisma) (fns : list (string * QueryFunction)) :
  exists ws, wrapAll camel gql authMapping theUser thePrisma true fns = Return ws.
Proof.
  induction fns as [|[key fn] fns [ws IH]]; simpl.
  - eauto.
  - rewrite IH. eauto.
Qed.

Lemma wrapAll_mutation_unknown (thePrisma : Prisma)
    (fns : list (string * QueryFunction)) (queryName : string) (fn : QueryFunction) :
  In (queryName, fn) fns ->
  exec queryName = None ->
  exists name,
    wrapAll camel gql authMapping theUser thePrisma false fns =
    Throw (Error ("Unknown query type for query named " +:+ name)).
Proof.
  intros Hin Hex. induction fns as [|[key f] fns IH]; [destruct Hin|].
  simpl. unfold wrapQuery.
  destruct (getQueryType key) as [queryType|e] eqn:Hq.
  - destruct Hin as [[= -> ->]|Hin].
    + rewrite (getQueryType_unknown _ Hex) in Hq. discriminate.
    + destruct (IH Hin) as [name ->]. eauto.
  - apply getQueryType_Throw in Hq as ->. eauto.
Qed.

End Wrapping.

(** C9. A mutation whose name contains none of the tokens create, update,
    upsert, delete, updateMany, deleteMany cannot be classified:
    [getQueryType] throws the unknown-query-type error, [wrapQuery] throws
    it in turn, and so does the construction of the whole authorized
    binding that holds the mutation, so that no request reaches it.  A read
    operation is never classified: it is wrapped under the kind [get]
    whatever its name. *)
Theorem C9_unknown_query_operation
    (camel : string -> string) (gql : string -> outcome unit)
    (authMapping : WithAuthorization.node) (theUser : jvalue)
    (thePrisma : WithAuthorization.Prisma)
    (queryFunction : WithAuthorization.QueryFunction) (queryName : string) :
  forallb (fun token => negb (includes token queryName))
    WithAuthorization.matchQueryType = true ->
  WithAuthorization.getQueryType queryName =
    Throw (Error ("Unknown query type for query named " +:+ queryName)) /\
  WithAuthorization.wrapQuery camel gql authMapping theUser thePrisma
    queryFunction false queryName =
    Throw (Error ("Unknown query type for query named " +:+ queryName)) /\
  (In (queryName, queryFunction) (WithAuthorization.mutation thePrisma) ->
   exists name,
     WithAuthorization.withAuthorization camel gql authMapping theUser thePrisma =
     Throw (Error ("Unknown query type for query named " +:+ name))) /\
  (forall name,
     WithAuthorization.wrapQuery camel gql authMapping theUser thePrisma
       queryFunction true name =
     Return (WithAuthorization.wrapped gql authMapping theUser thePrisma
               queryFunction "get" (camel (replace "get" "" name)))).
Proof.
  intros H.
  assert (Hex : WithAuthorization.exec queryName = None).
  { apply exec_None. intros t Hin.
    rewrite forallb_forall in H. specialize (H t Hin).
    apply negb_true_iff in H. exact H. }
  pose proof (getQueryType_unknown _ Hex) as Hq.
  split; [exact Hq|]. split; [|split].
  - unfold WithAuthorization.wrapQuery. rewrite Hq. reflexivity.
  - intros Hin. unfold WithAuthorization.withAuthorization.
    destruct (wrapAll_read camel gql authMapping theUser thePrisma
                (WithAuthorization.query thePrisma)) as [ws ->].
    destruct (wrapAll_mutation_unknown camel gql authMapping theUser thePrisma
                _ _ _ Hin Hex) as [name ->].
    eauto.
  - intros name. reflexivity.
Qed.

Lemma C9_unknown_query_operation_witness :
  WithAuthorization.getQueryType "publish" =
    Throw (Error "Unknown query type for query named publish") /\
  exists name,
    WithAuthorization.withAuthorization Samples.camel Samples.gql
      Samples.titleOnly Samples.reader Samples.binding =
    Throw (Error ("Unknown query type for query named " +:+ name)).
Proof.
  pose proof (C9_unknown_query_operation Samples.camel Samples.gql
                Samples.titleOnly Samples.reader Samples.binding
                Samples.post_found "publish" eq_refl) as (H1 & _ & H3 & _).
  split; [exact H1|]. apply H3. left. reflexivity.
Defined.

Section LeftmostMatch.

Import WithAuthorization.

Lemma getQueryType_Return (name t : string) :
  getQueryType name = Return t -> exists i, exec name = Some (i, t).
Proof.
  unfold getQueryType. destruct (exec name) as [[i g]|]; [|discriminate].
  destruct (negb (String.eqb g "")); [|discriminate].
  intros [= ->]. eauto.
Qed.

Lemma getQueryType_exec (name t : string) (i : nat) :
  exec name = Some (i, t) -> t <> "" -> getQueryType name = Return t.
Proof.
  unfold getQueryType. intros -> Ht.
  apply String.eqb_neq in Ht. rewrite Ht. reflexivity.
Qed.

(** A name whose leftmost match starts a token followed by [Many]. *)
Lemma classify_many (token pre suf : string) :
  In token matchQueryType ->
  token <> "" ->
  match_here (token +:+ "Many" +:+ suf) = Some token ->
  no_match_before (String.length pre) (pre +:+ token +:+ "Many" +:+ suf) = true ->
  getQueryType (pre +:+ token +:+ "Many" +:+ suf) = Return token /\
  replace token "" (pre +:+ token +:+ "Many" +:+ suf) = pre +:+ "Many" +:+ suf.
Proof.
  intros Hin Hne Hm Hn. split.
  - apply (getQueryType_exec _ _ (String.length pre + 0)); [|exact Hne].
    rewrite (exec_skip _ _ Hn).
    assert (He : exec (token +:+ "Many" +:+ suf) = Some (0, token)).
    { destruct (token +:+ "Many" +:+ suf); cbn [exec]; rewrite Hm; reflexivity. }
    rewrite He. reflexivity.
  - rewrite (replace_skip _ _ _ Hin Hn). f_equal.
    apply match_here_Some in Hm as [_ Hp].
    rewrite (replace_here _ _ Hp).
    clear. induction token as [|c token IH]; [reflexivity|].
    change (String c token +:+ "Many" +:+ suf)
      with (String c (token +:+ "Many" +:+ suf)).
    exact IH.
Qed.

End LeftmostMatch.

(** C10 as the code has it.  [getQueryType] returns the alternative that
    matches at the leftmost position of the name where some alternative
    matches, the alternatives being tried there in the order the expression
    lists them.  Hence it never returns [updateMany] or [deleteMany]; a
    name whose leftmost match is at an occurrence of [updateMany] or
    [deleteMany] is classified [update] or [delete]; and the resource name
    is [camel] of the name with that one matched token taken out. *)
Theorem C10_leftmost_alternative
    (camel : string -> string) (gql : string -> outcome unit)
    (authMapping : WithAuthorization.node) (theUser : jvalue)
    (thePrisma : WithAuthorization.Prisma)
    (queryFunction : WithAuthorization.QueryFunction) (name : string) :
  WithAuthorization.getQueryType name <> Return "updateMany" /\
  WithAuthorization.getQueryType name <> Return "deleteMany" /\
  (forall token,
     WithAuthorization.getQueryType name = Return token ->
     exists pre suf,
       name = pre +:+ token +:+ suf /\
       In token WithAuthorization.matchQueryType /\
       WithAuthorization.no_match_before (String.length pre) name = true /\
       WithAuthorization.wrapQuery camel gql authMapping theUser thePrisma
         queryFunction false name =
       Return (WithAuthorization.wrapped gql authMapping theUser thePrisma
                 queryFunction token (camel (pre +:+ suf)))) /\
  (forall pre suf,
     name = pre +:+ "updateMany" +:+ suf ->
     WithAuthorization.no_match_before (String.length pre) name = true ->
     WithAuthorization.wrapQuery camel gql authMapping theUser thePrisma
       queryFunction false name =
     Return (WithAuthorization.wrapped gql authMapping theUser thePrisma
               queryFunction "update" (camel (pre +:+ "Many" +:+ suf)))) /\
  (forall pre suf,
     name = pre +:+ "deleteMany" +:+ suf ->
     WithAuthorization.no_match_before (String.length pre) name = true ->
     WithAuthorization.wrapQuery camel gql authMapping theUser thePrisma
       queryFunction false name =
     Return (WithAuthorization.wrapped gql authMapping theUser thePrisma
               queryFunction "delete" (camel (pre +:+ "Many" +:+ suf)))).
Proof.
  assert (Hshort : forall t, WithAuthorization.getQueryType name = Return t ->
                             t <> "updateMany" /\ t <> "deleteMany").
  { intros t Ht. apply getQueryType_Return in Ht as [i Hi].
    apply exec_group in Hi as [s' Hs']. exact (match_here_short _ _ Hs'). }
  split; [|split; [|split; [|split]]].
  - intros H. destruct (Hshort _ H) as [Hu _]. apply Hu. reflexivity.
  - intros H. destruct (Hshort _ H) as [_ Hd]. apply Hd. reflexivity.
  - intros token Ht. pose proof Ht as Hq.
    apply getQueryType_Return in Ht as [i Hi].
    destruct (exec_leftmost _ _ _ Hi) as (pre & suf & Hs & Hl & Hin & Hn & Hr).
    exists pre, suf. subst i. repeat split; try assumption.
    unfold WithAuthorization.wrapQuery. rewrite Hq, Hr. reflexivity.
  - intros pre suf -> Hn.
    destruct (classify_many "update" pre suf) as [Hq Hr];
      [simpl; auto | discriminate | reflexivity | exact Hn |].
    unfold WithAuthorization.wrapQuery.
    change (pre +:+ "updateMany" +:+ suf) with (pre +:+ "update" +:+ "Many" +:+ suf).
    rewrite Hq, Hr. reflexivity.
  - intros pre suf -> Hn.
    destruct (classify_many "delete" pre suf) as [Hq Hr];
      [simpl; auto 6 | discriminate | reflexivity | exact Hn |].
    unfold WithAuthorization.wrapQuery.
    change (pre +:+ "deleteMany" +:+ suf) with (pre +:+ "delete" +:+ "Many" +:+ suf).
    rewrite Hq, Hr. reflexivity.
Qed.

Lemma C10_leftmost_alternative_witness :
  WithAuthorization.wrapQuery Samples.camel Samples.gql Samples.titleOnly
    Samples.reader Samples.binding Samples.post_found false "updateManyPosts" =
  Return (WithAuthorization.wrapped Samples.gql Samples.titleOnly
            Samples.reader Samples.binding Samples.post_found "update"
            (Samples.camel "ManyPosts")).
Proof.
  pose proof (C10_leftmost_alternative Samples.camel Samples.gql
                Samples.titleOnly Samples.reader Samples.binding
                Samples.post_found "updateManyPosts") as (_ & _ & _ & H & _).
  exact (H "" "Posts" eq_refl eq_refl).
Defined.

(** C10 as stated fails: a name may contain [updateMany] and yet be
    classified by a token that matches further to the left. *)
Lemma C10_counterexample :
  ~ (forall name,
       includes "updateMany" name = true ->
       WithAuthorization.getQueryType name = Return "update").
Proof.
  intros H. specialize (H "deleteupdateManyPosts" eq_refl).
  vm_compute in H. discriminate H.
Qed.

(** ** Summarization *)

Section Summarize.

Import WithAuthorization.


End Summarize.



(** ** Path resolution and the walk over the arguments *)

Section Walk.

Import WithAuthorization.

Variable gql : string -> outcome unit.
Variable authMapping : node.
Variable queryType : string.
Variable resourceName : string.

(** A path the mapping does not define resolves to [false]. *)
Lemma getAuthResolver_absent (queryPath : string) :
  get authMapping
    (resourceName +:+ "." +:+ queryType +:+ "." +:+ queryPath) = JUndefined ->
  getAuthResolver authMapping queryType resourceName queryPath = JBool false.
Proof.
  unfold getAuthResolver, get, get_default. intros H.
  destruct (isUndefined _) eqn:Hu in H.
  - rewrite Hu. reflexivity.
  - rewrite H in Hu. discriminate.
Qed.

(** The resolver of an absent path makes [processPath] answer [false]. *)
Lemma processPath_absent (fuel : nat) (rootArgs : jvalue) (run : M jvalue)
    (info : string) (ctx : context) (value : jvalue) (absoluteKey : string)
    (st : run_state) :
  get authMapping
    (resourceName +:+ "." +:+ queryType +:+ "." +:+ absoluteKey) = JUndefined ->
  processPath gql authMapping queryType resourceName (S fuel) rootArgs run info ctx
    value (getAuthResolver authMapping queryType resourceName absoluteKey) absoluteKey st =
  Some (Return (JBool false), st).
Proof. intros H. rewrite (getAuthResolver_absent _ H). reflexivity. Qed.

(** A string resolver: the walk starts again on the arguments found at the
    key, with the projected run, whatever the string is. *)
Lemma processPath_string (fuel : nat) (rootArgs : jvalue) (run : M jvalue)
    (info : string) (ctx : context) (value : jvalue) (other absoluteKey : string) :
  processPath gql authMapping queryType resourceName (S fuel) rootArgs run info ctx
    value (JStr other) absoluteKey =
  processAuth gql authMapping queryType resourceName fuel
    (get rootArgs absoluteKey) (createSubLevelRunFn absoluteKey run) info ctx.
Proof. reflexivity. Qed.

End Walk.

Section Run.

Import WithAuthorization.

Variable queryFunction : QueryFunction.

(** Once [runResult] holds a truthy value, [run] returns it and leaves the
    data operation alone. *)
Lemma run_cached (args : jvalue) (info : string) (st : run_state) :
  truthy (runResult st) = true ->
  run queryFunction args info st = Some (Return (runResult st), st).
Proof. unfold run. intros ->. reflexivity. Qed.

(** Otherwise it invokes the data operation. *)
Lemma run_invokes (args : jvalue) (info : string) (st : run_state) :
  truthy (runResult st) = false ->
  exists st',
    run queryFunction args info st = Some (queryFunction args info (calls st), st') /\
    calls st' = S (calls st).
Proof.
  unfold run. intros ->. simpl.
  destruct (queryFunction args info (calls st)); eauto.
Qed.

(** A request that passes the check resolves to what the handle gives. *)
Lemma wrapped_authorized (gql : string -> outcome unit) (authMapping : node)
    (theUser : jvalue) (thePrisma : Prisma) (queryType resourceName : string)
    (fuel : nat) (args : jvalue) (info : string) (ctx : jvalue)
    (st st' : run_state) (authResult isAuthorized : jvalue) :
  processAuth gql authMapping queryType resourceName fuel args
    (run queryFunction args info) info
    {| graphqlContext := ctx; user := theUser; prisma := thePrisma |} st =
    Some (Return authResult, st') ->
  summarizeAuthResult fuel authResult = Some (Return isAuthorized) ->
  truthy isAuthorized = true ->
  wrapped gql authMapping theUser thePrisma queryFunction queryType resourceName
    fuel args info ctx st =
  run queryFunction args info st'.
Proof.
  intros Hauth Hsum Htruthy. unfold wrapped, bind at 1. rewrite Hauth.
  unfold bind. rewrite Hsum. cbn [lift_fuel lift_outcome ret].
  rewrite Htruthy. reflexivity.
Qed.

End Run.

(** C1 on the code.  The resolver of a path without an entry is [false],
    and the walk records [false] at that path; but [summarizeAuthResult]
    answers [true] for the recorded tree, and the request goes through to
    the data operation.  The traversal itself, called on the tree with the
    verdict first, answers [false]. *)
Theorem C1_missing_entry_summarized_true :
  WithAuthorization.getAuthResolver Samples.titleOnly "get" "post" "secret" = JBool false /\
  WithAuthorization.processAuth Samples.gql Samples.titleOnly "get" "post" 3
    Samples.titleAndSecret
    (WithAuthorization.run Samples.post_found Samples.titleAndSecret "{ id }")
    "{ id }" Samples.ctx WithAuthorization.fresh =
  Some (Return (JObj [("title", JBool true); ("secret", JBool false)]),
        WithAuthorization.fresh) /\
  WithAuthorization.summarizeAuthResult 3
    (JObj [("title", JBool true); ("secret", JBool false)]) =
  Some (Return (JBool true)) /\
  WithAuthorization.traverse 3 (JBool true)
    (JObj [("title", JBool true); ("secret", JBool false)]) =
  Some (Return (JBool false)) /\
  match WithAuthorization.wrapQuery Samples.camel Samples.gql Samples.titleOnly
          Samples.reader Samples.binding Samples.post_found true "post" with
  | Return wrapped =>
      wrapped 3 Samples.titleAndSecret "{ id }" (JObj []) WithAuthorization.fresh =
      Some (Return Samples.thePost,
            {| WithAuthorization.runResult := Samples.thePost;
               WithAuthorization.calls := 1 |})
  | Throw _ => False
  end.
Proof. repeat split. Qed.

(** C3 on the code.  At a string resolver the walk does take the
    arguments at the absolute key of the root arguments and the run
    projected at that key, but it goes on under the resource and the kind of
    the wrapped operation: the string is never read.  With [author]
    delegated to [user], whose policy allows [name], the name of the author
    is looked up as [post.get.name] and denied. *)
Theorem C3_delegate_target_ignored :
  (forall gql authMapping queryType resourceName fuel rootArgs run info ctx
          value other other' absoluteKey,
     WithAuthorization.processPath gql authMapping queryType resourceName
       (S fuel) rootArgs run info ctx value (JStr other) absoluteKey =
     WithAuthorization.processAuth gql authMapping queryType resourceName fuel
       (get rootArgs absoluteKey)
       (WithAuthorization.createSubLevelRunFn absoluteKey run) info ctx /\
     WithAuthorization.processPath gql authMapping queryType resourceName
       (S fuel) rootArgs run info ctx value (JStr other) absoluteKey =
     WithAuthorization.processPath gql authMapping queryType resourceName
       (S fuel) rootArgs run info ctx value (JStr other') absoluteKey) /\
  WithAuthorization.getAuthResolver Samples.authorIsUser "get" "post" "author" =
    JStr "user" /\
  WithAuthorization.getAuthResolver Samples.authorIsUser "get" "user" "name" =
    JBool true /\
  WithAuthorization.processAuth Samples.gql Samples.authorIsUser "get" "post" 6
    Samples.withAuthor
    (WithAuthorization.run Samples.post_found Samples.withAuthor "{ id }")
    "{ id }" Samples.ctx WithAuthorization.fresh =
  Some (Return (JObj [("author", JObj [("name", JBool false)])]),
        WithAuthorization.fresh).
Proof. repeat split. Qed.

(** C4 on the code.  [run] tells a cached result from a missing one by its
    truthiness.  When the data operation resolves to [null], two
    invocations of the handle invoke it twice; so does a request whose
    policy awaits the handle once, since [wrapped] invokes the handle
    again for the response. *)
Theorem C4_run_repeats_on_falsy_result :
  WithAuthorization.bind
    (WithAuthorization.run Samples.post_missing Samples.byId "{ id }")
    (fun _ => WithAuthorization.run Samples.post_missing Samples.byId "{ id }")
    WithAuthorization.fresh =
  Some (Return JNull,
        {| WithAuthorization.runResult := JNull; WithAuthorization.calls := 2 |}) /\
  WithAuthorization.wrapped Samples.gql Samples.idLooksAtResult Samples.reader
    Samples.binding Samples.post_missing "get" "post" 3
    Samples.byId "{ id }" (JObj []) WithAuthorization.fresh =
  Some (Return JNull,
        {| WithAuthorization.runResult := JNull; WithAuthorization.calls := 2 |}).
Proof. repeat split. Qed.

(** C5 on the code.  The promise an [async] policy returns is stored in
    the result as it is: [await] is applied to the object [processAuth]
    returns, not to the promises inside it.  A policy resolving to [false]
    leaves a promise in the tree, the summary is [true], and the request
    goes through; the traversal called with the verdict first skips the
    promise as well. *)
Theorem C5_promise_not_awaited :
  WithAuthorization.processAuth Samples.gql Samples.idAsyncDeny "get" "post" 3
    Samples.byId
    (WithAuthorization.run Samples.post_found Samples.byId "{ id }")
    "{ id }" Samples.ctx WithAuthorization.fresh =
  Some (Return (JObj [("id", JPromise true (JBool false))]),
        WithAuthorization.fresh) /\
  WithAuthorization.summarizeAuthResult 3 (JObj [("id", JPromise true (JBool false))]) =
  Some (Return (JBool true)) /\
  WithAuthorization.traverse 3 (JBool true) (JObj [("id", JPromise true (JBool false))]) =
  Some (Return (JBool true)) /\
  WithAuthorization.wrapped Samples.gql Samples.idAsyncDeny Samples.reader
    Samples.binding Samples.post_found "get" "post" 3
    Samples.byId "{ id }" (JObj []) WithAuthorization.fresh =
  Some (Return Samples.thePost,
        {| WithAuthorization.runResult := Samples.thePost;
           WithAuthorization.calls := 1 |}).
Proof. repeat split. Qed.

(** ** The three phases of [Authorized] *)

Section Phases.

Import Authorized.

Variables AuthMapping DocumentNode Cache : Type.
Variable pascal : string -> string.
Variable authorize : AuthMapping -> AuthorizeArgs -> outcome jvalue.
Variable summarizeAuthResult : jvalue -> outcome jvalue.
Variable mapPromiseValues : list (string * outcome jvalue) -> outcome jvalue.
Variable annotateAuthResultWithInputTypes : jvalue -> jvalue -> jvalue.
Variable getQueryTypes_input : DocumentNode -> RootType -> string -> outcome jvalue.
Variable getQueryTypes_response : DocumentNode -> RootType -> string -> outcome jvalue.

Variable this : Authorized AuthMapping DocumentNode Cache.
Variable compiled : Compiled AuthMapping.
Variable queryFunction : QueryFunction.
Variable queryName : string.
Variable inputs : jvalue.
Variable info : string.
Variable ctx : jvalue.

(** The context and the root data [wrapQuery] builds for the request. *)
Let context : AuthContext :=
  {| user := compiledFor compiled; graphqlContext := ctx; prisma := this_prisma this |}.

Let rootData (rootType : RootType) : QueryRootData :=
  {| rootFieldName := queryName;
     rootTypeName := pascal (rootType_name rootType);
     Authorized.inputs := inputs |}.

Let pipeline (rootType : RootType) : P jvalue :=
  wrapQuery pascal authorize summarizeAuthResult mapPromiseValues
    annotateAuthResultWithInputTypes getQueryTypes_input getQueryTypes_response
    this compiled queryFunction rootType queryName inputs info ctx.

(** C2. When the write phase of a mutation summarizes to a falsy verdict,
    the request ends in the authorization error built from the annotated
    validation result, and the count of invocations of the data operation
    is what it was before the request: the operation is not invoked. *)
Theorem C2_invalid_inputs_never_execute
    (inputTypes responseType inputValidationResult areInputsValid : jvalue)
    (calls : nat) :
  getQueryTypes_input (typeDefs this) Mutation queryName = Return inputTypes ->
  getQueryTypes_response (typeDefs this) Mutation queryName = Return responseType ->
  validateInputs authorize mapPromiseValues compiled inputTypes context
    (rootData Mutation) inputs = Return inputValidationResult ->
  summarizeAuthResult inputValidationResult = Return areInputsValid ->
  truthy areInputsValid = false ->
  pipeline Mutation calls =
  (Throw (AuthorizationError
            (annotateAuthResultWithInputTypes inputValidationResult inputTypes)),
   calls).
Proof.
  intros Hin Hout Hval Hsum Hfalsy.
  unfold pipeline, wrapQuery, bind. rewrite Hin, Hout. cbn [await ret].
  unfold phase1, isRead, bind. cbn [negb]. fold context. fold (rootData Mutation).
  rewrite Hval. cbn [await ret]. rewrite Hsum. cbn [await ret].
  rewrite Hfalsy. reflexivity.
Qed.

(** C7. When the input validation passes (or the operation is a read, for
    which there is none) and the validation of the response passes, the
    request resolves to the very value the data operation resolved to, and
    the operation has been invoked once. *)
Theorem C7_response_returned_unchanged
    (rootType : RootType)
    (inputTypes responseType queryResponse : jvalue)
    (responseValidationResult isResponseValid : jvalue) (calls : nat) :
  getQueryTypes_input (typeDefs this) rootType queryName = Return inputTypes ->
  getQueryTypes_response (typeDefs this) rootType queryName = Return responseType ->
  (rootType = Query \/
   exists inputValidationResult areInputsValid,
     validateInputs authorize mapPromiseValues compiled inputTypes context
       (rootData rootType) inputs = Return inputValidationResult /\
     summarizeAuthResult inputValidationResult = Return areInputsValid /\
     truthy areInputsValid = true) ->
  queryFunction inputs info calls = Return queryResponse ->
  validateResponse authorize compiled responseType context (rootData rootType)
    queryResponse = Return responseValidationResult ->
  summarizeAuthResult responseValidationResult = Return isResponseValid ->
  truthy isResponseValid = true ->
  pipeline rootType calls = (Return queryResponse, S calls).
Proof.
  intros Hin Hout Hphase1 Hrun Hval Hsum Htruthy.
  assert (H1 : phase1 authorize summarizeAuthResult mapPromiseValues
                 annotateAuthResultWithInputTypes compiled rootType inputTypes
                 context (rootData rootType) inputs calls = (Return tt, calls)).
  { unfold phase1, isRead, bind.
    destruct Hphase1 as [->|(r & v & Hr & Hv & Ht)]; [reflexivity|].
    destruct rootType; [reflexivity|]. cbn [negb].
    rewrite Hr. cbn [await ret]. rewrite Hv. cbn [await ret].
    rewrite Ht. reflexivity. }
  unfold pipeline, wrapQuery. unfold bind at 1. rewrite Hin. cbn [await ret].
  unfold bind at 1. rewrite Hout. cbn [await ret].
  unfold bind at 1. fold context. fold (rootData rootType). rewrite H1.
  unfold bind at 1. unfold invoke. rewrite Hrun.
  unfold bind at 1. rewrite Hval. cbn [await ret].
  unfold bind at 1. rewrite Hsum. cbn [await ret].
  rewrite Htruthy. reflexivity.
Qed.

End Phases.

Lemma C2_invalid_inputs_never_execute_witness :
  Authorized.wrapQuery PipelineSamples.pascal PipelineSamples.authorize
    PipelineSamples.summarizeAuthResult PipelineSamples.mapPromiseValues
    PipelineSamples.annotate PipelineSamples.inputTypesOf
    PipelineSamples.responseTypeOf
    (PipelineSamples.service PipelineSamples.readOnly)
    (Authorized.compile PipelineSamples.derive
       (PipelineSamples.service PipelineSamples.readOnly) PipelineSamples.alice)
    PipelineSamples.createPost Authorized.Mutation "createPost"
    PipelineSamples.newPost "{ id }" (JObj []) 0 =
  (Throw (AuthorizationError
            (PipelineSamples.annotate (JObj [("data", JBool false)])
               (JObj [("data", JStr "PostCreateInput")]))),
   0).
Proof.
  apply (C2_invalid_inputs_never_execute
           PipelineSamples.Policy unit (gmap positive (Authorized.Compiled PipelineSamples.Policy))
           PipelineSamples.pascal PipelineSamples.authorize
           PipelineSamples.summarizeAuthResult PipelineSamples.mapPromiseValues
           PipelineSamples.annotate PipelineSamples.inputTypesOf
           PipelineSamples.responseTypeOf
           (PipelineSamples.service PipelineSamples.readOnly)
           (Authorized.compile PipelineSamples.derive
              (PipelineSamples.service PipelineSamples.readOnly) PipelineSamples.alice)
           PipelineSamples.createPost "createPost" PipelineSamples.newPost
           "{ id }" (JObj [])
           (JObj [("data", JStr "PostCreateInput")]) (JStr "Post")
           (JObj [("data", JBool false)]) (JBool false) 0);
    reflexivity.
Defined.

Lemma C7_response_returned_unchanged_witness :
  Authorized.wrapQuery PipelineSamples.pascal PipelineSamples.authorize
    PipelineSamples.summarizeAuthResult PipelineSamples.mapPromiseValues
    PipelineSamples.annotate PipelineSamples.inputTypesOf
    PipelineSamples.responseTypeOf
    (PipelineSamples.service PipelineSamples.readWrite)
    (Authorized.compile PipelineSamples.derive
       (PipelineSamples.service PipelineSamples.readWrite) PipelineSamples.alice)
    PipelineSamples.createPost Authorized.Mutation "createPost"
    PipelineSamples.newPost "{ id }" (JObj []) 0 =
  (Return PipelineSamples.created, 1).
Proof.
  apply (C7_response_returned_unchanged
           PipelineSamples.Policy unit (gmap positive (Authorized.Compiled PipelineSamples.Policy))
           PipelineSamples.pascal PipelineSamples.authorize
           PipelineSamples.summarizeAuthResult PipelineSamples.mapPromiseValues
           PipelineSamples.annotate PipelineSamples.inputTypesOf
           PipelineSamples.responseTypeOf
           (PipelineSamples.service PipelineSamples.readWrite)
           (Authorized.compile PipelineSamples.derive
              (PipelineSamples.service PipelineSamples.readWrite) PipelineSamples.alice)
           PipelineSamples.createPost "createPost" PipelineSamples.newPost
           "{ id }" (JObj []) Authorized.Mutation
           (JObj [("data", JStr "PostCreateInput")]) (JStr "Post")
           PipelineSamples.created (JBool true) (JBool true) 0);
    try reflexivity.
  right. exists (JObj [("data", JBool true)]), (JBool true).
  repeat split.
Defined.

(** ** The cache of [forUser] *)

Section Memo.

Import Authorized.

Variables AuthMapping DocumentNode Cache : Type.
Context {memo : MemoCache User (Compiled AuthMapping) Cache}.
Variable applyDerivedTypePermissions : DocumentNode -> AuthMapping -> AuthMapping.

(** A principal found in the cache gets the authorizer compiled earlier,
    whatever the permission map has become since. *)
Lemma forUser_cached (this : Authorized AuthMapping DocumentNode Cache)
    (user : User) (result : Compiled AuthMapping) :
  cache_get user (forUser_cache this) = Some result ->
  forUser applyDerivedTypePermissions user this = (result, this).
Proof. unfold forUser. intros ->. reflexivity. Qed.

(** A principal compiled once is found in the cache afterwards. *)
Lemma forUser_memoised (this : Authorized AuthMapping DocumentNode Cache) (user : User) :
  let (result, this') := forUser applyDerivedTypePermissions user this in
  forUser applyDerivedTypePermissions user this' = (result, this').
Proof.
  unfold forUser at 1.
  destruct (cache_get user (forUser_cache this)) as [result|] eqn:Hget.
  - apply forUser_cached. exact Hget.
  - apply forUser_cached. cbn [forUser_cache]. apply cache_get_set.
Qed.

(** C8. After [setPermissionMap] no principal is left in the cache of
    [forUser], so that the next [forUser] of any principal, cached before
    or not, compiles again: the authorizer it returns is built from the
    new permission map (with the derived permissions applied to it unless
    the option is off), not from the one it replaced. *)
Theorem C8_setPermissionMap_clears_cache
    (this : Authorized AuthMapping DocumentNode Cache)
    (newPermissionMap : AuthMapping) (user : User) :
  let this' := setPermissionMap newPermissionMap this in
  (forall principal, cache_get principal (forUser_cache this') = None) /\
  permissionMap this' = newPermissionMap /\
  fst (forUser applyDerivedTypePermissions user this') =
    compile applyDerivedTypePermissions this' user /\
  fst (forUser applyDerivedTypePermissions user this') =
    {| compiledFor := user;
       completePermissionMap :=
         if match autoGenerateDerivedTypePermissions (options this) with
            | Some b => b
            | None => true
            end
         then applyDerivedTypePermissions (typeDefs this) newPermissionMap
         else newPermissionMap |}.
Proof.
  cbv zeta.
  assert (Hclear : forall principal,
             cache_get principal
               (forUser_cache (setPermissionMap newPermissionMap this)) = None).
  { intros principal. cbn [setPermissionMap forUser_cache]. apply cache_get_clear. }
  split; [exact Hclear|]. split; [reflexivity|].
  unfold forUser. rewrite Hclear. split; reflexivity.
Qed.

End Memo.

(** The cache at work.  A principal compiled under one policy keeps that
    authorizer if only the field [permissionMap] is given a new value; it
    is through the clearing of the cache that [setPermissionMap] makes the
    new policy reach it. *)
Example setPermissionMap_at_work :
  let this :=
    snd (Authorized.forUser PipelineSamples.derive PipelineSamples.alice
           (PipelineSamples.service PipelineSamples.readOnly)) in
  let assigned :=
    {| Authorized.this_prisma := Authorized.this_prisma this;
       Authorized.typeDefs := Authorized.typeDefs this;
       Authorized.permissionMap := PipelineSamples.readWrite;
       Authorized.options := Authorized.options this;
       Authorized.forUser_cache := Authorized.forUser_cache this |} in
  Authorized.completePermissionMap
    (fst (Authorized.forUser PipelineSamples.derive PipelineSamples.alice assigned)) =
    PipelineSamples.readOnly /\
  Authorized.completePermissionMap
    (fst (Authorized.forUser PipelineSamples.derive PipelineSamples.alice
            (Authorized.setPermissionMap PipelineSamples.readWrite this))) =
    PipelineSamples.readWrite.
Proof. split; reflexivity. Qed.

(** * Further properties *)

(** ** Which names classify, and what a read is filed under *)

Section Names.

Import WithAuthorization Notions.

Lemma exec_In (s : string) (i : nat) (t : string) :
  exec s = Some (i, t) -> In t matchQueryType.
Proof.
  intros H. apply exec_group in H as [s' H].
  apply match_here_Some in H as [H _]. exact H.
Qed.

Lemma includes_exec (t s : string) :
  In t matchQueryType -> includes t s = true -> exec s <> None.
Proof.
  intros Hin. induction s as [|c s IH]; cbn [includes exec]; intros H.
  - rewrite orb_false_r in H.
    destruct (match_here "") eqn:Hm; [discriminate|].
    rewrite (match_here_None _ _ Hm Hin) in H. discriminate.
  - destruct (match_here (String c s)) eqn:Hm; [discriminate|].
    rewrite (match_here_None _ _ Hm Hin) in H. cbn [orb] in H.
    specialize (IH H). destruct (exec s) as [[i g]|]; [discriminate|congruence].
Qed.

Lemma alternative_nonempty (t : string) : In t matchQueryType -> t <> "".
Proof.
  cbn [In matchQueryType]. intros H.
  repeat (destruct H as [<-|H]; [discriminate|]). destruct H.
Qed.

Lemma replace_absent (pattern replacement s : string) :
  includes pattern s = false -> replace pattern replacement s = s.
Proof.
  induction s as [|c s IH]; cbn [includes replace]; intros H;
    apply orb_false_iff in H as [Hp Hi]; rewrite Hp; [reflexivity|].
  rewrite (IH Hi). reflexivity.
Qed.

Lemma replace_first (pattern replacement pre suf : string) :
  occurs_before pattern (String.length pre) (pre +:+ pattern +:+ suf) = false ->
  replace pattern replacement (pre +:+ pattern +:+ suf) = pre +:+ replacement +:+ suf.
Proof.
  induction pre as [|c pre IH]; intros H.
  - change ("" +:+ ?x) with x.
    pose proof (prefix_append_self pattern suf) as Hp.
    assert (Hd : drop_chars (String.length pattern) (pattern +:+ suf) = suf).
    { clear. induction pattern as [|c p IH]; [reflexivity|exact IH]. }
    destruct (pattern +:+ suf) eqn:E; cbn [replace]; rewrite Hp, Hd; reflexivity.
  - change (String c pre +:+ ?x) with (String c (pre +:+ x)) in *.
    cbn [String.length occurs_before] in H.
    apply orb_false_iff in H as [Hp Hi].
    cbn [replace]. rewrite Hp, (IH Hi). reflexivity.
Qed.

End Names.

(** X1. [getQueryType] classifies a name exactly when one of the tokens of
    the expression occurs in it, and what it returns is one of [create],
    [update], [upsert], [delete]. *)
Theorem getQueryType_classifies_iff (name : string) :
  ((exists token, WithAuthorization.getQueryType name = Return token) <->
   (exists token, In token WithAuthorization.matchQueryType /\
                  includes token name = true)) /\
  (forall token,
     WithAuthorization.getQueryType name = Return token ->
     In token ["create"; "update"; "upsert"; "delete"]).
Proof.
  split; [split|].
  - intros [token H]. apply getQueryType_Return in H as [i H].
    destruct (exec_leftmost _ _ _ H) as (pre & suf & Hs & _ & Hin & _).
    exists token. split; [exact Hin|]. apply includes_spec. eauto.
  - intros (token & Hin & Hinc).
    pose proof (includes_exec _ _ Hin Hinc) as Hex.
    destruct (WithAuthorization.exec name) as [[i g]|] eqn:He; [|congruence].
    exists g. apply (getQueryType_exec _ _ i He).
    apply alternative_nonempty. exact (exec_In _ _ _ He).
  - intros token H. pose proof H as Hq.
    apply getQueryType_Return in H as [i H].
    pose proof (exec_In _ _ _ H) as Hin.
    apply exec_group in H as [s' H]. apply match_here_short in H as [Hu Hd].
    cbn [In WithAuthorization.matchQueryType] in Hin. cbn [In].
    intuition congruence.
Qed.

Section Binding.

Import WithAuthorization.

Variable camel : string -> string.
Variable gql : string -> outcome unit.
Variable authMapping : node.
Variable theUser : jvalue.
Variable thePrisma : Prisma.

Lemma wrapAll_keys (isRead : bool) (fns : list (string * QueryFunction))
    (ws : list (string * WrappedQueryFunction)) :
  wrapAll camel gql authMapping theUser thePrisma isRead fns = Return ws ->
  map fst ws = map fst fns.
Proof.
  revert ws. induction fns as [|[key fn] fns IH]; intros ws; cbn [wrapAll].
  - intros [= <-]. reflexivity.
  - destruct (wrapQuery _ _ _ _ _ fn isRead key); [|discriminate].
    destruct (wrapAll _ _ _ _ _ isRead fns); [|discriminate].
    intros [= <-]. cbn [map fst]. f_equal. apply IH. reflexivity.
Qed.

Lemma wrapAll_mutation_classified (fns : list (string * QueryFunction)) :
  (forall key fn, In (key, fn) fns -> exists token, getQueryType key = Return token) ->
  exists ws, wrapAll camel gql authMapping theUser thePrisma false fns = Return ws.
Proof.
  induction fns as [|[key fn] fns IH]; intros H; cbn [wrapAll].
  - eauto.
  - destruct (H key fn (or_introl eq_refl)) as [token Ht].
    unfold wrapQuery. rewrite Ht.
    destruct IH as [ws ->]; [intros k f Hin; apply (H k f); right; exact Hin|].
    eauto.
Qed.

Lemma wrapAll_mutation_Return (fns : list (string * QueryFunction))
    (ws : list (string * WrappedQueryFunction)) :
  wrapAll camel gql authMapping theUser thePrisma false fns = Return ws ->
  forall key fn, In (key, fn) fns -> exists token, getQueryType key = Return token.
Proof.
  revert ws. induction fns as [|[k f] fns IH]; intros ws H key fn Hin.
  - destruct Hin.
  - cbn [wrapAll] in H. unfold wrapQuery in H.
    destruct (getQueryType k) as [token|e] eqn:Hk; [|discriminate].
    destruct (wrapAll _ _ _ _ _ false fns) as [ws'|] eqn:Hw; [|discriminate].
    destruct Hin as [[= <- <-]|Hin]; [eauto|].
    exact (IH ws' eq_refl key fn Hin).
Qed.

End Binding.

(** X2. The authorized binding can be built exactly when every mutation
    of the underlying binding has a name that classifies; the queries never
    stand in the way.  When it is built, it offers the same queries and the
    same mutations, under the same names and in the same order. *)
Theorem withAuthorization_built_iff
    (camel : string -> string) (gql : string -> outcome unit)
    (authMapping : WithAuthorization.node) (theUser : jvalue)
    (thePrisma : WithAuthorization.Prisma) :
  ((exists authorized,
      WithAuthorization.withAuthorization camel gql authMapping theUser thePrisma =
      Return authorized) <->
   (forall key fn,
      In (key, fn) (WithAuthorization.mutation thePrisma) ->
      exists token, WithAuthorization.getQueryType key = Return token)) /\
  (forall authorized,
     WithAuthorization.withAuthorization camel gql authMapping theUser thePrisma =
     Return authorized ->
     map fst (WithAuthorization.authorized_query authorized) =
       map fst (WithAuthorization.query thePrisma) /\
     map fst (WithAuthorization.authorized_mutation authorized) =
       map fst (WithAuthorization.mutation thePrisma)).
Proof.
  unfold WithAuthorization.withAuthorization.
  destruct (wrapAll_read camel gql authMapping theUser thePrisma
              (WithAuthorization.query thePrisma)) as [qs Hq].
  rewrite Hq. split; [split|].
  - intros [authorized H].
    destruct (WithAuthorization.wrapAll camel gql authMapping theUser thePrisma
                false (WithAuthorization.mutation thePrisma)) as [ms|] eqn:Hm;
      [|discriminate].
    exact (wrapAll_mutation_Return _ _ _ _ _ _ _ Hm).
  - intros H.
    destruct (wrapAll_mutation_classified camel gql authMapping theUser thePrisma
                _ H) as [ms ->].
    eauto.
  - intros authorized H.
    destruct (WithAuthorization.wrapAll camel gql authMapping theUser thePrisma
                false (WithAuthorization.mutation thePrisma)) as [ms|] eqn:Hm;
      [|discriminate].
    injection H as <-. cbn [WithAuthorization.authorized_query
                            WithAuthorization.authorized_mutation].
    split; eapply wrapAll_keys; eassumption.
Qed.

(** X3. A read is filed under [camel] of its name with the first [get]
    taken out, wherever in the name that [get] stands; a name without
    [get] is filed under [camel] of the name itself. *)
Theorem read_resource_name
    (camel : string -> string) (gql : string -> outcome unit)
    (authMapping : WithAuthorization.node) (theUser : jvalue)
    (thePrisma : WithAuthorization.Prisma)
    (queryFunction : WithAuthorization.QueryFunction) (pre suf name : string) :
  Notions.occurs_before "get" (String.length pre) (pre +:+ "get" +:+ suf) = false ->
  WithAuthorization.wrapQuery camel gql authMapping theUser thePrisma
    queryFunction true (pre +:+ "get" +:+ suf) =
  Return (WithAuthorization.wrapped gql authMapping theUser thePrisma
            queryFunction "get" (camel (pre +:+ suf))) /\
  (includes "get" name = false ->
   WithAuthorization.wrapQuery camel gql authMapping theUser thePrisma
     queryFunction true name =
   Return (WithAuthorization.wrapped gql authMapping theUser thePrisma
             queryFunction "get" (camel name))).
Proof.
  intros H. unfold WithAuthorization.wrapQuery. split.
  - rewrite (replace_first "get" "" pre suf H). reflexivity.
  - intros Ha. rewrite (replace_absent _ _ _ Ha). reflexivity.
Qed.

Lemma read_resource_name_witness :
  WithAuthorization.wrapQuery Samples.camel Samples.gql Samples.titleOnly
    Samples.reader Samples.binding Samples.post_found true "widgets" =
  Return (WithAuthorization.wrapped Samples.gql Samples.titleOnly
            Samples.reader Samples.binding Samples.post_found "get"
            (Samples.camel "wids")).
Proof.
  exact (proj1 (read_resource_name Samples.camel Samples.gql Samples.titleOnly
                  Samples.reader Samples.binding Samples.post_found
                  "wid" "s" "posts" eq_refl)).
Defined.

(** ** The traversal as a reducer *)

Section Traversal.

Import WithAuthorization Notions.

Lemma reduce_conjunction (f : jvalue -> jvalue -> option (outcome jvalue))
    (fields : list (string * jvalue)) :
  (forall field b, In field fields ->
     f (JBool b) (snd field) = Some (Return (JBool (b && conjunction (snd field))))) ->
  forall b,
    reduce f (map snd fields) (JBool b) =
    Some (Return (JBool (b && forallb (fun field => conjunction (snd field)) fields))).
Proof.
  induction fields as [|field fields IH]; intros Hf b; cbn [map reduce forallb].
  - rewrite andb_true_r. reflexivity.
  - rewrite (Hf field b (or_introl eq_refl)).
    rewrite IH; [|intros fd b' Hin; apply Hf; right; exact Hin].
    rewrite andb_assoc. reflexivity.
Qed.

Lemma depth_field (field : string * jvalue) (fields : list (string * jvalue)) :
  In field fields ->
  depth (snd field) <= fold_right (fun fd d => Nat.max (depth (snd fd)) d) 0 fields.
Proof.
  induction fields as [|fd fields IH]; intros Hin; [destruct Hin|].
  cbn [fold_right]. destruct Hin as [->|Hin]; [lia|]. specialize (IH Hin). lia.
Qed.

Lemma traverse_conjunction (fuel : nat) :
  forall (result : jvalue) (b : bool),
    verdictTree result = true -> depth result < fuel ->
    traverse fuel (JBool b) result = Some (Return (JBool (b && conjunction result))).
Proof.
  induction fuel as [|fuel IH]; intros result b Hwf Hd; [lia|].
  destruct result as [| |l|n|s|fields|fulfilled payload|[]];
    try discriminate Hwf.
  - cbn. destruct b; reflexivity.
  - cbn. rewrite andb_true_r. reflexivity.
  - cbn [traverse isBoolean objectValues nullish entries conjunction].
    apply reduce_conjunction. intros field b' Hin.
    apply IH.
    + cbn [verdictTree] in Hwf. rewrite forallb_forall in Hwf. exact (Hwf _ Hin).
    + cbn [depth] in Hd. pose proof (depth_field _ _ Hin). lia.
  - cbn. rewrite andb_true_r. reflexivity.
Qed.

End Traversal.

(** X4. Used as the reducer it is written as, with the verdict first,
    [traverse] yields the conjunction of the running verdict and of every
    boolean leaf of the result, at any depth; leaves that are numbers or
    promises do not count. *)
Theorem traverse_is_conjunction (fuel : nat) (result : jvalue) (verdict : bool) :
  Notions.verdictTree result = true ->
  Notions.depth result < fuel ->
  WithAuthorization.traverse fuel (JBool verdict) result =
  Some (Return (JBool (verdict && Notions.conjunction result))).
Proof. apply traverse_conjunction. Qed.

Lemma traverse_is_conjunction_witness :
  WithAuthorization.traverse 3 (JBool true)
    (JObj [("title", JBool true); ("author", JObj [("email", JBool false)])]) =
  Some (Return (JBool false)).
Proof.
  exact (traverse_is_conjunction 3
           (JObj [("title", JBool true); ("author", JObj [("email", JBool false)])])
           true eq_refl (le_n 3)).
Defined.

(** ** The walk over the arguments, in general *)

Section WalkShape.

Import WithAuthorization Notions.

Lemma mapEntries_keys (fn : jvalue -> string -> M jvalue) (es : list (string * jvalue)) :
  forall st rs st',
    mapEntries fn es st = Some (Return rs, st') -> map fst rs = map fst es.
Proof.
  induction es as [|[key v] es IH]; intros st rs st'; cbn [mapEntries].
  - intros [= <- _]. reflexivity.
  - unfold bind at 1. destruct (fn v key st) as [[[r|e] st1]|]; try discriminate.
    unfold bind at 1.
    destruct (mapEntries fn es st1) as [[[rs'|e] st2]|] eqn:Hm; try discriminate.
    intros [= <- _]. cbn [map fst]. f_equal. exact (IH _ _ _ Hm).
Qed.

Lemma mapEntries_frame (fn : jvalue -> string -> M jvalue) (es : list (string * jvalue)) :
  (forall v key st o st', fn v key st = Some (o, st') -> st' = st) ->
  forall st o st', mapEntries fn es st = Some (o, st') -> st' = st.
Proof.
  intros Hfn. induction es as [|[key v] es IH]; intros st o st'; cbn [mapEntries].
  - intros [= _ <-]. reflexivity.
  - unfold bind at 1. destruct (fn v key st) as [[[r|e] st1]|] eqn:Hf; try discriminate.
    + apply Hfn in Hf as ->. unfold bind at 1.
      destruct (mapEntries fn es st) as [[[rs'|e] st2]|] eqn:Hm; try discriminate.
      * apply IH in Hm as ->. intros [= _ <-]. reflexivity.
      * apply IH in Hm as ->. intros [= _ <-]. reflexivity.
    + apply Hfn in Hf as ->. intros [= _ <-]. reflexivity.
Qed.

Lemma mapValues_keys (object : jvalue) (fn : jvalue -> string -> M jvalue)
    (st : run_state) (r : jvalue) (st' : run_state) :
  mapValues object fn st = Some (Return r, st') ->
  exists rs, r = JObj rs /\ map fst rs = map fst (entries object).
Proof.
  unfold mapValues, bind.
  destruct (mapEntries fn (entries object) st) as [[[rs|e] st1]|] eqn:Hm;
    try discriminate.
  intros [= <- _]. exists rs. split; [reflexivity|]. exact (mapEntries_keys _ _ _ _ _ Hm).
Qed.

Lemma mapValues_frame (object : jvalue) (fn : jvalue -> string -> M jvalue) :
  (forall v key st o st', fn v key st = Some (o, st') -> st' = st) ->
  forall st o st', mapValues object fn st = Some (o, st') -> st' = st.
Proof.
  intros Hfn st o st'. unfold mapValues, bind.
  destruct (mapEntries fn (entries object) st) as [[[rs|e] st1]|] eqn:Hm;
    try discriminate.
  - apply (mapEntries_frame _ _ Hfn) in Hm as ->. intros [= _ <-]. reflexivity.
  - apply (mapEntries_frame _ _ Hfn) in Hm as ->. intros [= _ <-]. reflexivity.
Qed.

Variable gql : string -> outcome unit.
Variable authMapping : node.
Variable queryType : string.
Variable resourceName : string.

Lemma processLevel_keys (fuel : nat) (rootArgs : jvalue) (run : M jvalue)
    (info : string) (ctx : context) (args : jvalue) (levelKey : option string)
    (st : run_state) (r : jvalue) (st' : run_state) :
  processLevel gql authMapping queryType resourceName fuel rootArgs run info ctx
    args levelKey st = Some (Return r, st') ->
  exists rs, r = JObj rs /\ map fst rs = map fst (entries args).
Proof.
  destruct fuel as [|fuel]; [discriminate|]. cbn [processLevel].
  apply mapValues_keys.
Qed.

Lemma processAuth_keys (fuel : nat) (rootArgs : jvalue) (run : M jvalue)
    (info : string) (ctx : context)
    (st : run_state) (r : jvalue) (st' : run_state) :
  processAuth gql authMapping queryType resourceName fuel rootArgs run info ctx st =
    Some (Return r, st') ->
  exists rs, r = JObj rs /\ map fst rs = map fst (entries rootArgs).
Proof.
  destruct fuel as [|fuel]; [discriminate|]. cbn [processAuth]. unfold bind at 1.
  destruct (gql info) as [[]|e]; cbn [lift_outcome ret throw]; [|discriminate].
  apply processLevel_keys.
Qed.

End WalkShape.

(** X5. The check [wrapped] makes on the result of the walk never fails:
    the walk returns an object, which [summarizeAuthResult] answers with
    [true].  A request is the walk followed by the handle; it is turned down
    only when the walk itself throws. *)
Theorem wrapped_is_walk_then_run
    (gql : string -> outcome unit) (authMapping : WithAuthorization.node)
    (theUser : jvalue) (thePrisma : WithAuthorization.Prisma)
    (queryFunction : WithAuthorization.QueryFunction)
    (queryType resourceName : string)
    (fuel : nat) (args : jvalue) (info : string) (ctx : jvalue)
    (st : WithAuthorization.run_state) :
  WithAuthorization.wrapped gql authMapping theUser thePrisma queryFunction
    queryType resourceName fuel args info ctx st =
  WithAuthorization.bind
    (WithAuthorization.processAuth gql authMapping queryType resourceName fuel args
       (WithAuthorization.run queryFunction args info) info
       {| WithAuthorization.graphqlContext := ctx;
          WithAuthorization.user := theUser;
          WithAuthorization.prisma := thePrisma |})
    (fun _ => WithAuthorization.run queryFunction args info) st.
Proof.
  unfold WithAuthorization.wrapped. unfold WithAuthorization.bind at 1 3.
  destruct (WithAuthorization.processAuth _ _ _ _ fuel _ _ _ _ st)
    as [[[r|e] st']|] eqn:H; try reflexivity.
  destruct (processAuth_keys _ _ _ _ _ _ _ _ _ _ _ _ H) as (rs & -> & _).
  destruct fuel as [|fuel]; [discriminate H|]. reflexivity.
Qed.

(** X6. The result of the walk mirrors the arguments: it is an object
    with the keys of the root arguments, in their order. *)
Theorem processAuth_mirrors_arguments
    (gql : string -> outcome unit) (authMapping : WithAuthorization.node)
    (queryType resourceName : string) (fuel : nat) (rootArgs : jvalue)
    (run : WithAuthorization.M jvalue) (info : string)
    (ctx : WithAuthorization.context)
    (st : WithAuthorization.run_state) (result : jvalue)
    (st' : WithAuthorization.run_state) :
  WithAuthorization.processAuth gql authMapping queryType resourceName fuel
    rootArgs run info ctx st = Some (Return result, st') ->
  exists fields,
    result = JObj fields /\ map fst fields = map fst (entries rootArgs).
Proof. apply processAuth_keys. Qed.

Lemma processAuth_mirrors_arguments_witness :
  exists fields : list (string * jvalue),
    JObj [("title", JBool true); ("secret", JBool false)] = JObj fields /\
    map fst fields = map fst (entries Samples.titleAndSecret).
Proof.
  exact (processAuth_mirrors_arguments Samples.gql Samples.titleOnly "get" "post" 3
           Samples.titleAndSecret
           (WithAuthorization.run Samples.post_found Samples.titleAndSecret "{ id }")
           "{ id }" Samples.ctx WithAuthorization.fresh
           (JObj [("title", JBool true); ("secret", JBool false)])
           WithAuthorization.fresh eq_refl).
Defined.

(** X8. A selection set the parser rejects fails the request with the
    parser's error before any policy is looked at; the data operation is not
    invoked and the request state is untouched. *)
Theorem wrapped_parse_error
    (gql : string -> outcome unit) (authMapping : WithAuthorization.node)
    (theUser : jvalue) (thePrisma : WithAuthorization.Prisma)
    (queryFunction : WithAuthorization.QueryFunction)
    (queryType resourceName : string)
    (fuel : nat) (args : jvalue) (info : string) (ctx : jvalue)
    (st : WithAuthorization.run_state) (e : error) :
  gql info = Throw e ->
  WithAuthorization.wrapped gql authMapping theUser thePrisma queryFunction
    queryType resourceName (S fuel) args info ctx st = Some (Throw e, st).
Proof.
  intros H. unfold WithAuthorization.wrapped, WithAuthorization.bind.
  cbn [WithAuthorization.processAuth]. unfold WithAuthorization.bind.
  rewrite H. reflexivity.
Qed.

Lemma wrapped_parse_error_witness :
  WithAuthorization.wrapped Notions.gqlStrict Samples.titleOnly Samples.reader
    Samples.binding Samples.post_found "get" "post" 1 Samples.byId ""
    (JObj []) WithAuthorization.fresh =
  Some (Throw (Error "Syntax Error: Unexpected <EOF>"), WithAuthorization.fresh).
Proof.
  exact (wrapped_parse_error Notions.gqlStrict Samples.titleOnly Samples.reader
           Samples.binding Samples.post_found "get" "post" 0 Samples.byId ""
           (JObj []) WithAuthorization.fresh _ eq_refl).
Defined.

(** X9. Arguments without own enumerable properties ([undefined], [null],
    a number, a boolean, the empty object) give the walk nothing to look
    up: if the selection set parses, the request is the handle alone,
    whatever the permission mapping says. *)
Theorem wrapped_without_arguments
    (gql : string -> outcome unit) (authMapping : WithAuthorization.node)
    (theUser : jvalue) (thePrisma : WithAuthorization.Prisma)
    (queryFunction : WithAuthorization.QueryFunction)
    (queryType resourceName : string)
    (fuel : nat) (args : jvalue) (info : string) (ctx : jvalue)
    (st : WithAuthorization.run_state) :
  entries args = [] ->
  gql info = Return tt ->
  WithAuthorization.wrapped gql authMapping theUser thePrisma queryFunction
    queryType resourceName (S (S fuel)) args info ctx st =
  WithAuthorization.run queryFunction args info st.
Proof.
  intros He Hg. rewrite wrapped_is_walk_then_run.
  unfold WithAuthorization.bind at 1.
  cbn [WithAuthorization.processAuth WithAuthorization.processLevel].
  unfold WithAuthorization.bind at 1. rewrite Hg.
  unfold WithAuthorization.mapValues. rewrite He. reflexivity.
Qed.

Lemma wrapped_without_arguments_witness :
  WithAuthorization.wrapped Samples.gql (JObj []) Samples.reader
    Samples.binding Samples.post_found "get" "post" 2 JUndefined "{ id }"
    (JObj []) WithAuthorization.fresh =
  WithAuthorization.run Samples.post_found JUndefined "{ id }" WithAuthorization.fresh.
Proof.
  exact (wrapped_without_arguments Samples.gql (JObj []) Samples.reader
           Samples.binding Samples.post_found "get" "post" 0 JUndefined "{ id }"
           (JObj []) WithAuthorization.fresh eq_refl eq_refl).
Defined.

(** ** Declarative mappings leave the data operation alone *)

Section Declarative.

Import WithAuthorization Notions.

Lemma lookup_functionFree (k : string) (fields : list (string * node)) (n : node) :
  lookup_field k fields = Some n ->
  forallb (fun field => functionFree (snd field)) fields = true ->
  functionFree n = true.
Proof.
  induction fields as [|[k' n'] fields IH]; cbn [lookup_field forallb snd];
    [discriminate|].
  intros H Hall. apply andb_true_iff in Hall as [Hn Hrest].
  destruct (String.eqb k k'); [injection H as <-; exact Hn|auto].
Qed.

Lemma lookup_chars (k : string) (s : string) :
  forall i (n : node), lookup_field k (chars_from i s) = Some n -> functionFree n = true.
Proof.
  induction s as [|c s IH]; intros i n; cbn [chars_from lookup_field];
    [discriminate|].
  destruct (String.eqb k (index_key i)); [intros [= <-]; reflexivity|apply IH].
Qed.

Lemma prop_functionFree (o : node) (k : string) :
  functionFree o = true -> functionFree (prop o k) = true.
Proof.
  unfold prop. intros Ho.
  destruct (lookup_field k (entries o)) as [n|] eqn:Hl; [|reflexivity].
  destruct o; cbn [entries] in Hl; try discriminate Hl.
  - exact (lookup_chars _ _ _ _ Hl).
  - exact (lookup_functionFree _ _ _ Hl Ho).
Qed.

Lemma baseGet_functionFree (path : list string) :
  forall o : node, functionFree o = true -> functionFree (baseGet o path) = true.
Proof.
  induction path as [|k path IH]; intros o Ho; cbn [baseGet]; [exact Ho|].
  destruct (nullish o); [reflexivity|]. apply IH, prop_functionFree, Ho.
Qed.

Lemma get_default_functionFree (o : node) (path : string) (d : node) :
  functionFree o = true -> functionFree d = true ->
  functionFree (get_default o path d) = true.
Proof.
  intros Ho Hd. unfold get_default.
  destruct (isUndefined _); [exact Hd|].
  destruct (nullish o); [reflexivity|]. apply baseGet_functionFree, Ho.
Qed.

Variable gql : string -> outcome unit.
Variable authMapping : node.
Variable queryType : string.
Variable resourceName : string.
Hypothesis declarative : functionFree authMapping = true.

Lemma getAuthResolver_functionFree (queryPath : string) :
  functionFree (getAuthResolver authMapping queryType resourceName queryPath) = true.
Proof.
  unfold getAuthResolver. apply get_default_functionFree; [exact declarative|reflexivity].
Qed.

Lemma walk_frame (fuel : nat) :
  (forall rootArgs run info ctx args levelKey st o st',
     processLevel gql authMapping queryType resourceName fuel rootArgs run info ctx
       args levelKey st = Some (o, st') -> st' = st) /\
  (forall rootArgs run info ctx value authResolver absoluteKey st o st',
     functionFree authResolver = true ->
     processPath gql authMapping queryType resourceName fuel rootArgs run info ctx
       value authResolver absoluteKey st = Some (o, st') -> st' = st) /\
  (forall rootArgs run info ctx st o st',
     processAuth gql authMapping queryType resourceName fuel rootArgs run info ctx st =
       Some (o, st') -> st' = st).
Proof.
  induction fuel as [|fuel (IHlevel & IHpath & IHauth)].
  - repeat split; intros; discriminate.
  - split; [|split].
    + intros rootArgs run info ctx args levelKey. cbn [processLevel].
      apply mapValues_frame. intros v key st o st'.
      apply IHpath, getAuthResolver_functionFree.
    + intros rootArgs run info ctx value authResolver absoluteKey st o st' Hff.
      cbn [processPath].
      destruct authResolver; try discriminate Hff;
        try (intros [= _ <-]; reflexivity).
      * apply IHauth.
      * apply IHlevel.
    + intros rootArgs run info ctx st o st'. cbn [processAuth]. unfold bind.
      destruct (gql info) as [[]|e]; cbn [lift_outcome ret throw].
      * apply IHlevel.
      * intros [= _ <-]. reflexivity.
Qed.

End Declarative.

(** X7. When the permission mapping holds no policy function (booleans,
    nested objects and delegations only), the walk leaves the request state
    as it found it, so a request invokes the data operation at most once:
    either it resolves to the settlement of that one invocation, or the walk
    threw and the operation was not invoked. *)
Theorem declarative_mapping_single_invocation
    (gql : string -> outcome unit) (authMapping : WithAuthorization.node)
    (theUser : jvalue) (thePrisma : WithAuthorization.Prisma)
    (queryFunction : WithAuthorization.QueryFunction)
    (queryType resourceName : string)
    (fuel : nat) (args : jvalue) (info : string) (ctx : jvalue)
    (o : outcome jvalue) (st' : WithAuthorization.run_state) :
  Notions.functionFree authMapping = true ->
  WithAuthorization.wrapped gql authMapping theUser thePrisma queryFunction
    queryType resourceName fuel args info ctx WithAuthorization.fresh = Some (o, st') ->
  (o = queryFunction args info 0 /\ WithAuthorization.calls st' = 1) \/
  ((exists e, o = Throw e) /\ st' = WithAuthorization.fresh).
Proof.
  intros Hff. rewrite wrapped_is_walk_then_run. unfold WithAuthorization.bind.
  destruct (WithAuthorization.processAuth _ _ _ _ fuel _ _ _ _ WithAuthorization.fresh)
    as [[[r|e] st1]|] eqn:H; try discriminate.
  - destruct (walk_frame gql authMapping queryType resourceName Hff fuel)
      as (_ & _ & Hauth).
    apply Hauth in H as ->.
    unfold WithAuthorization.run. cbn.
    destruct (queryFunction args info 0); intros [= <- <-]; left; split; reflexivity.
  - destruct (walk_frame gql authMapping queryType resourceName Hff fuel)
      as (_ & _ & Hauth).
    apply Hauth in H as ->. intros [= <- <-]. right. eauto.
Qed.

Lemma declarative_mapping_single_invocation_witness :
  (Return Samples.thePost = Samples.post_found Samples.withAuthor "{ id }" 0 /\
   WithAuthorization.calls
     {| WithAuthorization.runResult := Samples.thePost;
        WithAuthorization.calls := 1 |} = 1) \/
  ((exists e, Return Samples.thePost = Throw e) /\
   {| WithAuthorization.runResult := Samples.thePost;
      WithAuthorization.calls := 1 |} = WithAuthorization.fresh).
Proof.
  exact (declarative_mapping_single_invocation Samples.gql Samples.authorIsUser
           Samples.reader Samples.binding Samples.post_found "get" "post" 6
           Samples.withAuthor "{ id }" (JObj []) (Return Samples.thePost)
           {| WithAuthorization.runResult := Samples.thePost;
              WithAuthorization.calls := 1 |}
           eq_refl eq_refl).
Defined.

(** ** The handle, invocation after invocation *)

Section Handle.

Import WithAuthorization Notions.

Variable queryFunction : QueryFunction.
Variable args : jvalue.
Variable info : string.

Lemma invocations_cached (n : nat) (st : run_state) :
  truthy (runResult st) = true ->
  invocations n (run queryFunction args info) st =
  Some (repeat (Return (runResult st)) n, st).
Proof.
  intros Ht. induction n as [|n IH]; [reflexivity|].
  cbn [invocations]. rewrite (run_cached queryFunction args info st Ht), IH.
  reflexivity.
Qed.

Lemma invocations_unproductive (n : nat) :
  forall st,
    truthy (runResult st) = false ->
    (forall i, i < n -> unproductive (queryFunction args info (calls st + i)) = true) ->
    exists st',
      invocations n (run queryFunction args info) st =
        Some (map (fun i => queryFunction args info (calls st + i)) (seq 0 n), st') /\
      calls st' = calls st + n /\
      truthy (runResult st') = false.
Proof.
  induction n as [|n IH]; intros st Hf Hall.
  - exists st. cbn. repeat split; [lia|exact Hf].
  - cbn [invocations]. unfold run at 1. rewrite Hf. cbn [negb].
    pose proof (Hall 0 ltac:(lia)) as H0. rewrite Nat.add_0_r in H0.
    set (st1 := match queryFunction args info (calls st) with
                | Return r => {| runResult := r; calls := S (calls st) |}
                | Throw _ => {| runResult := runResult st; calls := S (calls st) |}
                end).
    assert (Hst1 : truthy (runResult st1) = false /\ calls st1 = S (calls st)).
    { subst st1. destruct (queryFunction args info (calls st)) as [r|e]; cbn in *.
      - split; [apply negb_true_iff in H0; exact H0|reflexivity].
      - split; [exact Hf|reflexivity]. }
    destruct Hst1 as [Hf1 Hc1].
    destruct (IH st1 Hf1) as (st' & Hinv & Hcalls & Hfalsy).
    { intros i Hi. rewrite Hc1.
      replace (S (calls st) + i) with (calls st + S i) by lia.
      apply Hall. lia. }
    exists st'.
    assert (Hstep : match queryFunction args info (calls st) with
                    | Return r => Some (Return r, {| runResult := r; calls := S (calls st) |})
                    | Throw e => Some (Throw e, {| runResult := runResult st; calls := S (calls st) |})
                    end = Some (queryFunction args info (calls st), st1)).
    { subst st1. destruct (queryFunction args info (calls st)); reflexivity. }
    rewrite Hstep, Hinv. repeat split.
    + cbn [seq map]. rewrite Nat.add_0_r. do 3 f_equal.
      rewrite <- seq_shift, map_map. apply map_ext. intros i.
      rewrite Hc1. f_equal. lia.
    + lia.
    + exact Hfalsy.
Qed.

End Handle.

(** X10. Once the data operation has resolved to a truthy value, the
    handle is memoised: however often it is invoked, every invocation
    returns that value and the operation has been invoked once. *)
Theorem run_memoises_truthy
    (queryFunction : WithAuthorization.QueryFunction) (args : jvalue) (info : string)
    (st : WithAuthorization.run_state) (r : jvalue) (n : nat) :
  truthy (WithAuthorization.runResult st) = false ->
  queryFunction args info (WithAuthorization.calls st) = Return r ->
  truthy r = true ->
  Notions.invocations (S n) (WithAuthorization.run queryFunction args info) st =
  Some (repeat (Return r) (S n),
        {| WithAuthorization.runResult := r;
           WithAuthorization.calls := S (WithAuthorization.calls st) |}).
Proof.
  intros Hf Hq Ht. cbn [Notions.invocations]. unfold WithAuthorization.run at 1.
  rewrite Hf, Hq. cbn [negb].
  rewrite invocations_cached; [reflexivity|exact Ht].
Qed.

Lemma run_memoises_truthy_witness :
  Notions.invocations 3
    (WithAuthorization.run Samples.post_found Samples.byId "{ id }")
    WithAuthorization.fresh =
  Some ([Return Samples.thePost; Return Samples.thePost; Return Samples.thePost],
        {| WithAuthorization.runResult := Samples.thePost;
           WithAuthorization.calls := 1 |}).
Proof.
  exact (run_memoises_truthy Samples.post_found Samples.byId "{ id }"
           WithAuthorization.fresh Samples.thePost 2 eq_refl eq_refl eq_refl).
Defined.

(** X11. Settlements the handle does not keep are asked for again: as
    long as the data operation rejects or resolves to a falsy value, each
    invocation of the handle invokes the operation once more and passes its
    settlement through, so [n] invocations make [n] calls. *)
Theorem run_repeats_while_unproductive
    (queryFunction : WithAuthorization.QueryFunction) (args : jvalue) (info : string)
    (st : WithAuthorization.run_state) (n : nat) :
  truthy (WithAuthorization.runResult st) = false ->
  (forall i, i < n ->
     Notions.unproductive
       (queryFunction args info (WithAuthorization.calls st + i)) = true) ->
  exists st',
    Notions.invocations n (WithAuthorization.run queryFunction args info) st =
      Some (map (fun i => queryFunction args info (WithAuthorization.calls st + i))
              (seq 0 n), st') /\
    WithAuthorization.calls st' = WithAuthorization.calls st + n /\
    truthy (WithAuthorization.runResult st') = false.
Proof. intros Hf Hall. apply invocations_unproductive; assumption. Qed.

Lemma run_repeats_while_unproductive_witness :
  exists st',
    Notions.invocations 3
      (WithAuthorization.run Samples.post_missing Samples.byId "{ id }")
      WithAuthorization.fresh =
      Some ([Return JNull; Return JNull; Return JNull], st') /\
    WithAuthorization.calls st' = 3 /\
    truthy (WithAuthorization.runResult st') = false.
Proof.
  exact (run_repeats_while_unproductive Samples.post_missing Samples.byId "{ id }"
           WithAuthorization.fresh 3 eq_refl (fun i _ => eq_refl)).
Defined.

(** ** Projections of the handle *)

Section Paths.

Context {F : Type}.

Lemma stringToPath_nonempty (s : string) : stringToPath s <> [].
Proof.
  induction s as [|c s IH]; cbn [stringToPath]; [discriminate|].
  destruct (is_dot c); [discriminate|].
  destruct (stringToPath s); [contradiction|discriminate].
Qed.

Lemma stringToPath_single (s : string) :
  contains_dot s = false -> stringToPath s = [s].
Proof.
  induction s as [|c s IH]; cbn [contains_dot stringToPath]; [reflexivity|].
  intros H. apply orb_false_iff in H as [-> H]. rewrite (IH H). reflexivity.
Qed.

Lemma stringToPath_join (a b : string) :
  stringToPath (a +:+ "." +:+ b) = stringToPath a ++ stringToPath b.
Proof.
  induction a as [|c a IH].
  - reflexivity.
  - change (String c a +:+ "." +:+ b) with (String c (a +:+ "." +:+ b)).
    cbn [stringToPath]. rewrite IH. destruct (is_dot c); [reflexivity|].
    pose proof (stringToPath_nonempty a).
    destruct (stringToPath a); [contradiction|reflexivity].
Qed.

Lemma contains_dot_join (a b : string) : contains_dot (a +:+ "." +:+ b) = true.
Proof.
  induction a as [|c a IH]; [reflexivity|].
  change (String c a +:+ "." +:+ b) with (String c (a +:+ "." +:+ b)).
  cbn [contains_dot]. rewrite IH. apply orb_true_r.
Qed.

Lemma baseGet_app (p q : list string) :
  q <> [] ->
  forall o : jsval F, baseGet o (p ++ q) = baseGet (baseGet o p) q.
Proof.
  intros Hq. induction p as [|k p IH]; intros o; [reflexivity|].
  cbn [app baseGet]. destruct (nullish o); [|apply IH].
  destruct q; [contradiction|reflexivity].
Qed.

Lemma get_baseGet (o : jsval F) (path : string) :
  get o path = if nullish o then JUndefined else baseGet o (castPath path o).
Proof.
  unfold get, get_default. destruct (nullish o); [reflexivity|].
  destruct (baseGet o (castPath path o)); reflexivity.
Qed.

Lemma castPath_deep (o : jsval F) (path : string) :
  (contains_dot path = true -> has_prop o path = false) ->
  castPath path o = stringToPath path.
Proof.
  unfold castPath. intros H. destruct (contains_dot path) eqn:Hd; cbn [negb orb].
  - rewrite (H eq_refl). reflexivity.
  - rewrite (stringToPath_single _ Hd). reflexivity.
Qed.

(** lodash [get] along a joined path is [get] after [get], unless one of
    the paths is itself the name of a property. *)
Lemma get_join (o : jsval F) (a b : string) :
  has_prop o (a +:+ "." +:+ b) = false ->
  (contains_dot a = true -> has_prop o a = false) ->
  (contains_dot b = true -> has_prop (get o a) b = false) ->
  get o (a +:+ "." +:+ b) = get (get o a) b.
Proof.
  intros Hab Ha Hb. rewrite (get_baseGet o (a +:+ "." +:+ b)), (get_baseGet (get o a) b).
  rewrite (castPath_deep (get o a) b Hb).
  rewrite (get_baseGet o a) in *. destruct (nullish o) eqn:Hn.
  - reflexivity.
  - rewrite (castPath_deep o a Ha).
    rewrite (castPath_deep o (a +:+ "." +:+ b) (fun _ => Hab)).
    rewrite stringToPath_join, (baseGet_app _ _ (stringToPath_nonempty b)).
    destruct (nullish (baseGet o (stringToPath a))) eqn:Hx; [|reflexivity].
    pose proof (stringToPath_nonempty b).
    destruct (stringToPath b); [contradiction|]. cbn [baseGet]. rewrite Hx.
    reflexivity.
Qed.

End Paths.

(** X12. Projections of the handle compose: the projection at [b] of the
    projection at [a] settles as the projection at [a.b] of the handle
    itself, provided none of the three paths is, as a whole, the name of a
    property of the object it is looked up in.  The underlying handle is
    invoked once by either. *)
Theorem createSubLevelRunFn_composes
    (run : WithAuthorization.M jvalue) (a b : string)
    (st : WithAuthorization.run_state) :
  (forall result st',
     run st = Some (Return result, st') ->
     has_prop result (a +:+ "." +:+ b) = false /\
     (contains_dot a = true -> has_prop result a = false) /\
     (contains_dot b = true -> has_prop (get result a) b = false)) ->
  WithAuthorization.createSubLevelRunFn b
    (WithAuthorization.createSubLevelRunFn a run) st =
  WithAuthorization.createSubLevelRunFn (a +:+ "." +:+ b) run st.
Proof.
  intros H. unfold WithAuthorization.createSubLevelRunFn, WithAuthorization.bind.
  destruct (run st) as [[[result|e] st']|] eqn:Hr; try reflexivity.
  destruct (H result st' eq_refl) as (Hab & Ha & Hb).
  unfold WithAuthorization.ret. rewrite (get_join result a b Hab Ha Hb).
  reflexivity.
Qed.

Lemma createSubLevelRunFn_composes_witness :
  WithAuthorization.createSubLevelRunFn "name"
    (WithAuthorization.createSubLevelRunFn "author"
       (WithAuthorization.run Notions.post_with_author Samples.byId "{ id }"))
    WithAuthorization.fresh =
  WithAuthorization.createSubLevelRunFn "author.name"
    (WithAuthorization.run Notions.post_with_author Samples.byId "{ id }")
    WithAuthorization.fresh.
Proof.
  apply (createSubLevelRunFn_composes
           (WithAuthorization.run Notions.post_with_author Samples.byId "{ id }")
           "author" "name" WithAuthorization.fresh).
  intros result st' H. injection H as <- _.
  repeat split; intros; reflexivity || discriminate.
Defined.

(** ** The pipeline of [Authorized], phase by phase *)

Section PhasesFurther.

Import Authorized.

Variables AuthMapping DocumentNode Cache : Type.
Variable pascal : string -> string.
Variable authorize : AuthMapping -> AuthorizeArgs -> outcome jvalue.
Variable summarizeAuthResult : jvalue -> outcome jvalue.
Variable mapPromiseValues : list (string * outcome jvalue) -> outcome jvalue.
Variable annotateAuthResultWithInputTypes : jvalue -> jvalue -> jvalue.
Variable getQueryTypes_input : DocumentNode -> RootType -> string -> outcome jvalue.
Variable getQueryTypes_response : DocumentNode -> RootType -> string -> outcome jvalue.

Variable this : Authorized AuthMapping DocumentNode Cache.
Variable compiled : Compiled AuthMapping.
Variable queryFunction : QueryFunction.
Variable queryName : string.
Variable inputs : jvalue.
Variable info : string.
Variable ctx : jvalue.

Let context : AuthContext :=
  {| user := compiledFor compiled; graphqlContext := ctx; prisma := this_prisma this |}.

Let rootData (rootType : RootType) : QueryRootData :=
  {| rootFieldName := queryName;
     rootTypeName := pascal (rootType_name rootType);
     Authorized.inputs := inputs |}.

Let firstPhase (rootType : RootType) (inputTypes : jvalue) : P unit :=
  phase1 authorize summarizeAuthResult mapPromiseValues
    annotateAuthResultWithInputTypes compiled rootType inputTypes context
    (rootData rootType) inputs.

Let pipeline (rootType : RootType) : P jvalue :=
  wrapQuery pascal authorize summarizeAuthResult mapPromiseValues
    annotateAuthResultWithInputTypes getQueryTypes_input getQueryTypes_response
    this compiled queryFunction rootType queryName inputs info ctx.

Lemma phase1_calls (rootType : RootType) (inputTypes : jvalue) (calls : nat) :
  snd (firstPhase rootType inputTypes calls) = calls.
Proof.
  unfold firstPhase, phase1, isRead, bind.
  destruct rootType; cbn [negb]; [reflexivity|].
  destruct (validateInputs _ _ _ _ _ _ _) as [r|e]; cbn [await ret throw]; [|reflexivity].
  destruct (summarizeAuthResult r) as [v|e]; cbn [await ret throw]; [|reflexivity].
  destruct (negb (truthy v)); reflexivity.
Qed.

Lemma pipeline_unfold (rootType : RootType) (inputTypes responseType : jvalue)
    (calls : nat) :
  getQueryTypes_input (typeDefs this) rootType queryName = Return inputTypes ->
  getQueryTypes_response (typeDefs this) rootType queryName = Return responseType ->
  pipeline rootType calls =
  match firstPhase rootType inputTypes calls with
  | (Throw e, n) => (Throw e, n)
  | (Return _, n) =>
      match queryFunction inputs info n with
      | Throw e => (Throw e, S n)
      | Return queryResponse =>
          match validateResponse authorize compiled responseType context
                  (rootData rootType) queryResponse with
          | Throw e => (Throw e, S n)
          | Return responseValidationResult =>
              match summarizeAuthResult responseValidationResult with
              | Throw e => (Throw e, S n)
              | Return isResponseValid =>
                  if negb (truthy isResponseValid)
                  then (Throw (AuthorizationError responseValidationResult), S n)
                  else (Return queryResponse, S n)
              end
          end
      end
  end.
Proof.
  intros Hin Hout. unfold pipeline, wrapQuery. unfold bind at 1.
  rewrite Hin. cbn [await ret]. unfold bind at 1. rewrite Hout. cbn [await ret].
  unfold bind at 1. fold context. fold (rootData rootType).
  fold (firstPhase rootType inputTypes).
  destruct (firstPhase rootType inputTypes calls) as [[[]|e] n]; [|reflexivity].
  unfold bind at 1. unfold invoke.
  destruct (queryFunction inputs info n) as [queryResponse|e]; [|reflexivity].
  unfold bind at 1.
  destruct (validateResponse _ _ _ _ _ _) as [r|e]; cbn [await ret throw]; [|reflexivity].
  unfold bind.
  destruct (summarizeAuthResult r) as [v|e]; cbn [await ret throw]; [|reflexivity].
  destruct (negb (truthy v)); reflexivity.
Qed.

(** X13. A request invokes the data operation at most once, and it invokes
    it exactly when both type lookups succeed and the first phase passes;
    what the operation or the read phase do afterwards does not change the
    count. *)
Theorem operation_invoked_iff (rootType : RootType) (calls : nat) :
  (snd (pipeline rootType calls) = calls \/ snd (pipeline rootType calls) = S calls) /\
  (snd (pipeline rootType calls) = S calls <->
   exists inputTypes responseType,
     getQueryTypes_input (typeDefs this) rootType queryName = Return inputTypes /\
     getQueryTypes_response (typeDefs this) rootType queryName = Return responseType /\
     fst (firstPhase rootType inputTypes calls) = Return tt).
Proof.
  destruct (getQueryTypes_input (typeDefs this) rootType queryName)
    as [inputTypes|e1] eqn:Hin.
  2:{ assert (Hp : pipeline rootType calls = (Throw e1, calls)).
      { unfold pipeline, wrapQuery, bind. rewrite Hin. reflexivity. }
      rewrite Hp. cbn [snd]. split; [left; reflexivity|]. split; [lia|].
      intros (? & ? & [=] & _). }
  destruct (getQueryTypes_response (typeDefs this) rootType queryName)
    as [responseType|e2] eqn:Hout.
  2:{ assert (Hp : pipeline rootType calls = (Throw e2, calls)).
      { unfold pipeline, wrapQuery, bind. rewrite Hin, Hout. reflexivity. }
      rewrite Hp. cbn [snd]. split; [left; reflexivity|]. split; [lia|].
      intros (? & ? & _ & [=] & _). }
  rewrite (pipeline_unfold rootType inputTypes responseType calls Hin Hout).
  pose proof (phase1_calls rootType inputTypes calls) as Hc.
  destruct (firstPhase rootType inputTypes calls) as [[[]|e] n] eqn:H1;
    cbn [snd] in Hc; subst n.
  - assert (Hs : forall o : outcome jvalue * nat,
               o = match queryFunction inputs info calls with
                   | Throw e => (Throw e, S calls)
                   | Return queryResponse =>
                       match validateResponse authorize compiled responseType context
                               (rootData rootType) queryResponse with
                       | Throw e => (Throw e, S calls)
                       | Return r =>
                           match summarizeAuthResult r with
                           | Throw e => (Throw e, S calls)
                           | Return v =>
                               if negb (truthy v)
                               then (Throw (AuthorizationError r), S calls)
                               else (Return queryResponse, S calls)
                           end
                       end
                   end -> snd o = S calls).
    { intros o ->. destruct (queryFunction inputs info calls); [|reflexivity].
      destruct (validateResponse _ _ _ _ _ _); [|reflexivity].
      destruct (summarizeAuthResult _) as [v|]; [|reflexivity].
      destruct (negb (truthy v)); reflexivity. }
    rewrite (Hs _ eq_refl). split; [right; reflexivity|].
    split; [|reflexivity]. intros _. exists inputTypes, responseType.
    rewrite H1. repeat split.
  - cbn [snd]. split; [left; reflexivity|]. split; [lia|].
    intros (it & rt & [= <-] & _ & Hf). rewrite H1 in Hf. discriminate Hf.
Qed.

(** X14. A response the read phase turns down is turned down after the
    fact: the request ends in the authorization error carrying the
    unannotated validation result, and the data operation has been invoked. *)
Theorem response_denied_after_execution
    (rootType : RootType)
    (inputTypes responseType queryResponse : jvalue)
    (responseValidationResult isResponseValid : jvalue) (calls : nat) :
  getQueryTypes_input (typeDefs this) rootType queryName = Return inputTypes ->
  getQueryTypes_response (typeDefs this) rootType queryName = Return responseType ->
  firstPhase rootType inputTypes calls = (Return tt, calls) ->
  queryFunction inputs info calls = Return queryResponse ->
  validateResponse authorize compiled responseType context (rootData rootType)
    queryResponse = Return responseValidationResult ->
  summarizeAuthResult responseValidationResult = Return isResponseValid ->
  truthy isResponseValid = false ->
  pipeline rootType calls =
  (Throw (AuthorizationError responseValidationResult), S calls).
Proof.
  intros Hin Hout H1 Hq Hv Hs Hf.
  rewrite (pipeline_unfold rootType inputTypes responseType calls Hin Hout).
  rewrite H1, Hq, Hv, Hs, Hf. reflexivity.
Qed.

(** X15. An error of the collaborators in the write phase of a mutation (a
    rejected policy evaluation, an exception of the summary) ends the
    request with that very error, not with an authorization error, and
    before the data operation is invoked. *)
Theorem write_phase_error_propagates
    (inputTypes responseType : jvalue) (e : error) (calls : nat) :
  getQueryTypes_input (typeDefs this) Mutation queryName = Return inputTypes ->
  getQueryTypes_response (typeDefs this) Mutation queryName = Return responseType ->
  validateInputs authorize mapPromiseValues compiled inputTypes context
    (rootData Mutation) inputs = Throw e \/
  (exists inputValidationResult,
     validateInputs authorize mapPromiseValues compiled inputTypes context
       (rootData Mutation) inputs = Return inputValidationResult /\
     summarizeAuthResult inputValidationResult = Throw e) ->
  pipeline Mutation calls = (Throw e, calls).
Proof.
  intros Hin Hout H.
  rewrite (pipeline_unfold Mutation inputTypes responseType calls Hin Hout).
  unfold firstPhase, phase1, isRead, bind. cbn [negb].
  destruct H as [->|(r & -> & Hs)]; cbn [await ret throw]; [reflexivity|].
  rewrite Hs. reflexivity.
Qed.

(** X16. A rejection of the data operation ends the request with the
    operation's own error, after the one invocation; and so does a
    rejection met in the read phase. *)
Theorem execution_error_propagates
    (rootType : RootType) (inputTypes responseType : jvalue) (e : error) (calls : nat) :
  getQueryTypes_input (typeDefs this) rootType queryName = Return inputTypes ->
  getQueryTypes_response (typeDefs this) rootType queryName = Return responseType ->
  firstPhase rootType inputTypes calls = (Return tt, calls) ->
  queryFunction inputs info calls = Throw e \/
  (exists queryResponse,
     queryFunction inputs info calls = Return queryResponse /\
     validateResponse authorize compiled responseType context (rootData rootType)
       queryResponse = Throw e) ->
  pipeline rootType calls = (Throw e, S calls).
Proof.
  intros Hin Hout H1 H.
  rewrite (pipeline_unfold rootType inputTypes responseType calls Hin Hout), H1.
  destruct H as [->|(r & -> & ->)]; reflexivity.
Qed.

End PhasesFurther.

Lemma response_denied_after_execution_witness :
  Authorized.wrapQuery PipelineSamples.pascal PipelineSamples.authorize
    PipelineSamples.summarizeAuthResult PipelineSamples.mapPromiseValues
    PipelineSamples.annotate PipelineSamples.inputTypesOf
    PipelineSamples.responseTypeOf
    (PipelineSamples.service PipelineCases.writeOnly)
    (Authorized.compile PipelineSamples.derive
       (PipelineSamples.service PipelineCases.writeOnly) PipelineSamples.alice)
    PipelineSamples.createPost Authorized.Mutation "createPost"
    PipelineSamples.newPost "{ id }" (JObj []) 0 =
  (Throw (AuthorizationError (JBool false)), 1).
Proof.
  apply (response_denied_after_execution
           PipelineSamples.Policy unit (gmap positive (Authorized.Compiled PipelineSamples.Policy))
           PipelineSamples.pascal PipelineSamples.authorize
           PipelineSamples.summarizeAuthResult PipelineSamples.mapPromiseValues
           PipelineSamples.annotate PipelineSamples.inputTypesOf
           PipelineSamples.responseTypeOf
           (PipelineSamples.service PipelineCases.writeOnly)
           (Authorized.compile PipelineSamples.derive
              (PipelineSamples.service PipelineCases.writeOnly) PipelineSamples.alice)
           PipelineSamples.createPost "createPost" PipelineSamples.newPost
           "{ id }" (JObj []) Authorized.Mutation
           (JObj [("data", JStr "PostCreateInput")]) (JStr "Post")
           PipelineSamples.created (JBool false) (JBool false) 0);
    reflexivity.
Defined.

Lemma write_phase_error_propagates_witness :
  Authorized.wrapQuery PipelineSamples.pascal PipelineCases.broken
    PipelineSamples.summarizeAuthResult PipelineSamples.mapPromiseValues
    PipelineSamples.annotate PipelineSamples.inputTypesOf
    PipelineSamples.responseTypeOf
    (PipelineSamples.service PipelineSamples.readWrite)
    (Authorized.compile PipelineSamples.derive
       (PipelineSamples.service PipelineSamples.readWrite) PipelineSamples.alice)
    PipelineSamples.createPost Authorized.Mutation "createPost"
    PipelineSamples.newPost "{ id }" (JObj []) 0 =
  (Throw (Thrown (JStr "policy failed")), 0).
Proof.
  apply (write_phase_error_propagates
           PipelineSamples.Policy unit (gmap positive (Authorized.Compiled PipelineSamples.Policy))
           PipelineSamples.pascal PipelineCases.broken
           PipelineSamples.summarizeAuthResult PipelineSamples.mapPromiseValues
           PipelineSamples.annotate PipelineSamples.inputTypesOf
           PipelineSamples.responseTypeOf
           (PipelineSamples.service PipelineSamples.readWrite)
           (Authorized.compile PipelineSamples.derive
              (PipelineSamples.service PipelineSamples.readWrite) PipelineSamples.alice)
           PipelineSamples.createPost "createPost" PipelineSamples.newPost
           "{ id }" (JObj [])
           (JObj [("data", JStr "PostCreateInput")]) (JStr "Post")
           (Thrown (JStr "policy failed")) 0);
    try reflexivity.
  left. reflexivity.
Defined.

Lemma execution_error_propagates_witness :
  Authorized.wrapQuery PipelineSamples.pascal PipelineSamples.authorize
    PipelineSamples.summarizeAuthResult PipelineSamples.mapPromiseValues
    PipelineSamples.annotate PipelineSamples.inputTypesOf
    PipelineSamples.responseTypeOf
    (PipelineSamples.service PipelineSamples.readWrite)
    (Authorized.compile PipelineSamples.derive
       (PipelineSamples.service PipelineSamples.readWrite) PipelineSamples.alice)
    PipelineCases.unavailable Authorized.Mutation "createPost"
    PipelineSamples.newPost "{ id }" (JObj []) 0 =
  (Throw (Thrown (JStr "unavailable")), 1).
Proof.
  apply (execution_error_propagates
           PipelineSamples.Policy unit (gmap positive (Authorized.Compiled PipelineSamples.Policy))
           PipelineSamples.pascal PipelineSamples.authorize
           PipelineSamples.summarizeAuthResult PipelineSamples.mapPromiseValues
           PipelineSamples.annotate PipelineSamples.inputTypesOf
           PipelineSamples.responseTypeOf
           (PipelineSamples.service PipelineSamples.readWrite)
           (Authorized.compile PipelineSamples.derive
              (PipelineSamples.service PipelineSamples.readWrite) PipelineSamples.alice)
           PipelineCases.unavailable "createPost" PipelineSamples.newPost
           "{ id }" (JObj []) Authorized.Mutation
           (JObj [("data", JStr "PostCreateInput")]) (JStr "Post")
           (Thrown (JStr "unavailable")) 0);
    try reflexivity.
  left. reflexivity.
Defined.

Section ReadsAndInputs.

Import Authorized.

Variables AuthMapping DocumentNode Cache : Type.
Variable pascal : string -> string.
Variable summarizeAuthResult : jvalue -> outcome jvalue.
Variable getQueryTypes_input : DocumentNode -> RootType -> string -> outcome jvalue.
Variable getQueryTypes_response : DocumentNode -> RootType -> string -> outcome jvalue.

Variable this : Authorized AuthMapping DocumentNode Cache.
Variable compiled : Compiled AuthMapping.
Variable queryFunction : QueryFunction.
Variable queryName : string.
Variable inputs : jvalue.
Variable info : string.
Variable ctx : jvalue.

(** X17. A read never consults the write rules: two authorizers that
    agree on every request of kind [read] give a query the same outcome,
    whatever they say about [write] and however the write phase would
    collect and annotate its results. *)
Theorem read_ignores_write_rules
    (authorize authorize' : AuthMapping -> AuthorizeArgs -> outcome jvalue)
    (mapPromiseValues mapPromiseValues' : list (string * outcome jvalue) -> outcome jvalue)
    (annotate annotate' : jvalue -> jvalue -> jvalue) (calls : nat) :
  (forall map args, authType args = "read" -> authorize map args = authorize' map args) ->
  wrapQuery pascal authorize summarizeAuthResult mapPromiseValues annotate
    getQueryTypes_input getQueryTypes_response this compiled queryFunction
    Query queryName inputs info ctx calls =
  wrapQuery pascal authorize' summarizeAuthResult mapPromiseValues' annotate'
    getQueryTypes_input getQueryTypes_response this compiled queryFunction
    Query queryName inputs info ctx calls.
Proof.
  intros Hagree. unfold wrapQuery, bind.
  destruct (getQueryTypes_input _ _ _) as [inputTypes|]; cbn [await ret throw]; [|reflexivity].
  destruct (getQueryTypes_response _ _ _) as [responseType|]; cbn [await ret throw]; [|reflexivity].
  unfold phase1, isRead. cbn [negb ret]. unfold invoke.
  destruct (queryFunction inputs info calls) as [queryResponse|]; [|reflexivity].
  unfold validateResponse. rewrite Hagree; reflexivity.
Qed.

(** The write phase hands every input key to the authorizer on its own. *)
Lemma authorizeInputs_map
    (authorize : AuthMapping -> AuthorizeArgs -> outcome jvalue)
    (inputTypes : jvalue) (context : AuthContext) (rootData : QueryRootData)
    (es : list (string * jvalue)) :
  nullish inputTypes = false ->
  authorizeInputs AuthMapping authorize compiled inputTypes context rootData es =
  Return (map (fun entry =>
                 (fst entry,
                  authorize (completePermissionMap compiled)
                    {| typeName := prop inputTypes (fst entry);
                       authType := "write";
                       data := snd entry;
                       Authorized.context := context;
                       Authorized.rootData := rootData |})) es).
Proof.
  intros Hn. induction es as [|[key value] es IH]; cbn [authorizeInputs map fst snd].
  - reflexivity.
  - rewrite Hn, IH. reflexivity.
Qed.

(** X19. When the lookup of the input types of a mutation yields [null] or
    [undefined] and the mutation has inputs, the request fails with a
    [TypeError] raised while the first input is prepared: no policy is
    evaluated and the data operation is not invoked.  Without inputs the
    same lookup does no harm: the write phase collects no result. *)
Theorem missing_input_types
    (authorize : AuthMapping -> AuthorizeArgs -> outcome jvalue)
    (mapPromiseValues : list (string * outcome jvalue) -> outcome jvalue)
    (annotate : jvalue -> jvalue -> jvalue)
    (inputTypes responseType : jvalue) (calls : nat) :
  getQueryTypes_input (typeDefs this) Mutation queryName = Return inputTypes ->
  getQueryTypes_response (typeDefs this) Mutation queryName = Return responseType ->
  nullish inputTypes = true ->
  (entries inputs <> [] ->
   wrapQuery pascal authorize summarizeAuthResult mapPromiseValues annotate
     getQueryTypes_input getQueryTypes_response this compiled queryFunction
     Mutation queryName inputs info ctx calls =
   (Throw (TypeError "Cannot read properties of undefined"), calls)) /\
  (entries inputs = [] ->
   validateInputs authorize mapPromiseValues compiled inputTypes
     {| user := compiledFor compiled; graphqlContext := ctx;
        prisma := this_prisma this |}
     {| rootFieldName := queryName;
        rootTypeName := pascal (rootType_name Mutation);
        Authorized.inputs := inputs |} inputs =
   mapPromiseValues []).
Proof.
  intros Hin Hout Hn. split.
  - intros He. unfold wrapQuery, bind. rewrite Hin, Hout. cbn [await ret].
    unfold phase1, isRead, bind, validateInputs. cbn [negb].
    destruct (entries inputs) as [|[key value] es]; [contradiction|].
    cbn [authorizeInputs]. rewrite Hn. reflexivity.
  - intros He. unfold validateInputs. rewrite He. reflexivity.
Qed.

End ReadsAndInputs.

Lemma read_ignores_write_rules_witness :
  Authorized.wrapQuery PipelineSamples.pascal PipelineSamples.authorize
    PipelineSamples.summarizeAuthResult PipelineSamples.mapPromiseValues
    PipelineSamples.annotate PipelineSamples.inputTypesOf
    PipelineSamples.responseTypeOf
    (PipelineSamples.service PipelineSamples.readOnly)
    (Authorized.compile PipelineSamples.derive
       (PipelineSamples.service PipelineSamples.readOnly) PipelineSamples.alice)
    PipelineSamples.createPost Authorized.Query "post"
    PipelineSamples.newPost "{ id }" (JObj []) 0 =
  Authorized.wrapQuery PipelineSamples.pascal
    (fun policy args =>
       if String.eqb (Authorized.authType args) "read"
       then PipelineSamples.authorize policy args
       else PipelineCases.broken policy args)
    PipelineSamples.summarizeAuthResult PipelineSamples.mapPromiseValues
    PipelineSamples.annotate PipelineSamples.inputTypesOf
    PipelineSamples.responseTypeOf
    (PipelineSamples.service PipelineSamples.readOnly)
    (Authorized.compile PipelineSamples.derive
       (PipelineSamples.service PipelineSamples.readOnly) PipelineSamples.alice)
    PipelineSamples.createPost Authorized.Query "post"
    PipelineSamples.newPost "{ id }" (JObj []) 0.
Proof.
  apply (read_ignores_write_rules
           PipelineSamples.Policy unit (gmap positive (Authorized.Compiled PipelineSamples.Policy))).
  intros policy args H. rewrite H. reflexivity.
Defined.

Lemma missing_input_types_witness :
  Authorized.wrapQuery PipelineSamples.pascal PipelineSamples.authorize
    PipelineSamples.summarizeAuthResult PipelineSamples.mapPromiseValues
    PipelineSamples.annotate PipelineCases.noInputTypes
    PipelineSamples.responseTypeOf
    (PipelineSamples.service PipelineSamples.readWrite)
    (Authorized.compile PipelineSamples.derive
       (PipelineSamples.service PipelineSamples.readWrite) PipelineSamples.alice)
    PipelineSamples.createPost Authorized.Mutation "createPost"
    PipelineSamples.newPost "{ id }" (JObj []) 0 =
  (Throw (TypeError "Cannot read properties of undefined"), 0).
Proof.
  apply (missing_input_types
           PipelineSamples.Policy unit (gmap positive (Authorized.Compiled PipelineSamples.Policy))
           PipelineSamples.pascal PipelineSamples.summarizeAuthResult
           PipelineCases.noInputTypes PipelineSamples.responseTypeOf
           (PipelineSamples.service PipelineSamples.readWrite)
           (Authorized.compile PipelineSamples.derive
              (PipelineSamples.service PipelineSamples.readWrite) PipelineSamples.alice)
           PipelineSamples.createPost "createPost" PipelineSamples.newPost
           "{ id }" (JObj [])
           PipelineSamples.authorize PipelineSamples.mapPromiseValues
           PipelineSamples.annotate JUndefined (JStr "Post") 0);
    try reflexivity.
  discriminate.
Defined.

(** ** The memoisation of [forUser] *)

Section MemoFurther.

Import Authorized.

Variables AuthMapping DocumentNode Cache : Type.
Context {memo : MemoCache User (Compiled AuthMapping) Cache}.
Variable applyDerivedTypePermissions : DocumentNode -> AuthMapping -> AuthMapping.

(** X18. [forUser] is memoised by the principal alone.  After a first
    call, a value assigned to the field [permissionMap] without clearing the
    cache is not seen: the principal is still handed the authorizer compiled
    first, and the instance is left as it is.  Only [setPermissionMap]
    makes the assignment take effect. *)
Theorem forUser_keeps_first_compilation
    (this : Authorized AuthMapping DocumentNode Cache) (user : User)
    (assigned : AuthMapping) :
  let first := forUser applyDerivedTypePermissions user this in
  let reassigned :=
    {| this_prisma := this_prisma (snd first);
       typeDefs := typeDefs (snd first);
       permissionMap := assigned;
       options := options (snd first);
       forUser_cache := forUser_cache (snd first) |} in
  forUser applyDerivedTypePermissions user reassigned = (fst first, reassigned) /\
  forUser applyDerivedTypePermissions user (snd first) = first.
Proof.
  cbv zeta.
  assert (Hcached : cache_get user
            (forUser_cache (snd (forUser applyDerivedTypePermissions user this))) =
            Some (fst (forUser applyDerivedTypePermissions user this))).
  { unfold forUser.
    destruct (cache_get user (forUser_cache this)) as [result|] eqn:Hget; cbn [fst snd].
    - exact Hget.
    - cbn [forUser_cache]. apply cache_get_set. }
  split.
  - apply forUser_cached. cbn [forUser_cache]. exact Hcached.
  - erewrite forUser_cached by exact Hcached.
    destruct (forUser applyDerivedTypePermissions user this). reflexivity.
Qed.

End MemoFurther.

Section Construction.

Import Authorized.

Variables AuthMapping DocumentNode Cache : Type.
Context {memo : MemoCache User (Compiled AuthMapping) Cache}.
Variable applyDerivedTypePermissions : DocumentNode -> AuthMapping -> AuthMapping.

(** X20. The first [forUser] on a new instance compiles for the
    principal, from the permission map the constructor was given.  The
    derived permissions are applied to it when no options are passed and
    when the options leave the flag out; only an explicit [false] hands the
    map to the authorizer as it is. *)
Theorem new_instance_compiles
    (prisma : Prisma) (typeDefs : DocumentNode) (permissionMap : AuthMapping)
    (user : User) :
  fst (forUser applyDerivedTypePermissions user
         (new prisma typeDefs permissionMap None)) =
    {| compiledFor := user;
       completePermissionMap := applyDerivedTypePermissions typeDefs permissionMap |} /\
  fst (forUser applyDerivedTypePermissions user
         (new prisma typeDefs permissionMap
            (Some {| autoGenerateDerivedTypePermissions := None |}))) =
    {| compiledFor := user;
       completePermissionMap := applyDerivedTypePermissions typeDefs permissionMap |} /\
  (forall flag,
     fst (forUser applyDerivedTypePermissions user
            (new prisma typeDefs permissionMap
               (Some {| autoGenerateDerivedTypePermissions := Some flag |}))) =
     {| compiledFor := user;
        completePermissionMap :=
          if flag then applyDerivedTypePermissions typeDefs permissionMap
          else permissionMap |}).
Proof.
  unfold forUser, new. cbn [forUser_cache]. rewrite !cache_get_new.
  repeat split.
Qed.

End Construction.

(** ** Nested policies *)

Section Nested.

Import WithAuthorization.

Lemma append_assoc (a b c : string) : (a +:+ b) +:+ c = a +:+ (b +:+ c).
Proof.
  induction a as [|x a IH]; [reflexivity|].
  change (String x a +:+ b) with (String x (a +:+ b)).
  change (String x (a +:+ b) +:+ c) with (String x ((a +:+ b) +:+ c)).
  rewrite IH. reflexivity.
Qed.

Lemma get_default_get {F : Type} (o : jsval F) (path : string) (d : jsval F) :
  get_default o path d = if isUndefined (get o path) then d else get o path.
Proof.
  unfold get, get_default.
  destruct (if nullish o then JUndefined else baseGet o (castPath path o));
    reflexivity.
Qed.

End Nested.

(** When the resolver of a level is a plain object, the resolver of a key
    under that level is the property of that object under the key. *)
Lemma nested_policy_lookup
    (authMapping : WithAuthorization.node) (queryType resourceName : string)
    (levelKey key : string) (fields : list (string * WithAuthorization.node)) :
  levelKey <> "" ->
  WithAuthorization.getAuthResolver authMapping queryType resourceName levelKey =
    JObj fields ->
  has_prop authMapping
    (resourceName +:+ "." +:+ queryType +:+ "." +:+ levelKey +:+ "." +:+ key) = false ->
  has_prop authMapping
    (resourceName +:+ "." +:+ queryType +:+ "." +:+ levelKey) = false ->
  (contains_dot key = true -> has_prop (JObj fields) key = false) ->
  WithAuthorization.getAuthResolver authMapping queryType resourceName
    (WithAuthorization.absKey (Some levelKey) key) =
  get_default (JObj fields) key (JBool false).
Proof.
  intros Hne Hlevel Hwhole Hprefix Hkey.
  unfold WithAuthorization.getAuthResolver in *.
  unfold WithAuthorization.absKey.
  apply String.eqb_neq in Hne. rewrite Hne.
  rewrite get_default_get in Hlevel.
  set (prefix := resourceName +:+ "." +:+ queryType +:+ "." +:+ levelKey) in *.
  assert (Hget : get authMapping prefix = JObj fields).
  { destruct (isUndefined (get authMapping prefix)); [discriminate|exact Hlevel]. }
  assert (Hpath : resourceName +:+ "." +:+ queryType +:+ "." +:+ levelKey +:+ "." +:+ key =
                  prefix +:+ "." +:+ key).
  { subst prefix. rewrite !append_assoc. reflexivity. }
  rewrite Hpath in *.
  rewrite !get_default_get.
  rewrite (get_join authMapping prefix key Hwhole).
  - rewrite Hget. reflexivity.
  - intros _. exact Hprefix.
  - rewrite Hget. exact Hkey.
Qed.

Lemma mapEntries_ext (f g : jvalue -> string -> WithAuthorization.M jvalue)
    (es : list (string * jvalue)) :
  (forall key v, In (key, v) es -> forall st, f v key st = g v key st) ->
  forall st, WithAuthorization.mapEntries f es st = WithAuthorization.mapEntries g es st.
Proof.
  induction es as [|[key v] es IH]; intros H st; [reflexivity|].
  cbn [WithAuthorization.mapEntries]. unfold WithAuthorization.bind at 1 3.
  rewrite (H key v (or_introl eq_refl) st).
  destruct (g v key st) as [[[r|e] st1]|]; try reflexivity.
  unfold WithAuthorization.bind.
  rewrite (IH (fun k x Hin => H k x (or_intror Hin)) st1). reflexivity.
Qed.

(** X21. Policies nest.  When the walk meets a plain object as the
    resolver of a key, it walks the value under that key with the object
    as its policy: every key of the value is resolved to the property of
    the object under that key, to [false] when the object has none, and is
    processed under the absolute key made of the level and the key.  This
    holds when no piece of the paths involved is a name objects inherit
    from [Object.prototype], and no dotted path is itself the name of a
    property of the objects it is looked up in. *)
Theorem nested_policy_walk
    (gql : string -> outcome unit) (authMapping : WithAuthorization.node)
    (queryType resourceName : string) (fuel : nat) (rootArgs : jvalue)
    (run : WithAuthorization.M jvalue) (info : string)
    (ctx : WithAuthorization.context) (value : jvalue)
    (levelKey : string) (fields : list (string * WithAuthorization.node))
    (st : WithAuthorization.run_state) :
  levelKey <> "" ->
  WithAuthorization.getAuthResolver authMapping queryType resourceName levelKey =
    JObj fields ->
  ownNames (resourceName +:+ "." +:+ queryType +:+ "." +:+ levelKey) = true ->
  has_prop authMapping
    (resourceName +:+ "." +:+ queryType +:+ "." +:+ levelKey) = false ->
  (forall key v,
     In (key, v) (entries value) ->
     ownNames key = true /\
     has_prop authMapping
       (resourceName +:+ "." +:+ queryType +:+ "." +:+ levelKey +:+ "." +:+ key) = false /\
     (contains_dot key = true -> has_prop (JObj fields) key = false)) ->
  WithAuthorization.processPath gql authMapping queryType resourceName
    (S (S fuel)) rootArgs run info ctx value (JObj fields) levelKey st =
  WithAuthorization.mapValues value
    (fun v key =>
       WithAuthorization.processPath gql authMapping queryType resourceName
         fuel rootArgs run info ctx v
         (get_default (JObj fields) key (JBool false))
         (levelKey +:+ "." +:+ key)) st.
Proof.
  intros Hne Hlevel _ Hprefix Hkeys.
  cbn [WithAuthorization.processPath WithAuthorization.processLevel].
  unfold WithAuthorization.mapValues, WithAuthorization.bind.
  rewrite (mapEntries_ext _
             (fun v key =>
                WithAuthorization.processPath gql authMapping queryType resourceName
                  fuel rootArgs run info ctx v
                  (get_default (JObj fields) key (JBool false))
                  (levelKey +:+ "." +:+ key)) (entries value)); [reflexivity|].
  intros key v Hin st'. destruct (Hkeys key v Hin) as (_ & Hwhole & Hkey).
  rewrite (nested_policy_lookup authMapping queryType resourceName levelKey key
             fields Hne Hlevel Hwhole Hprefix Hkey).
  unfold WithAuthorization.absKey.
  pose proof Hne as Hne'. apply String.eqb_neq in Hne'. rewrite Hne'. reflexivity.
Qed.

Lemma nested_policy_walk_witness :
  WithAuthorization.processPath Samples.gql NestedCases.authorEmail "get" "post" 3
    (JObj [("author", NestedCases.contact)])
    (WithAuthorization.run Samples.post_found (JObj [("author", NestedCases.contact)]) "{ id }")
    "{ id }" Samples.ctx NestedCases.contact
    (JObj [("email", JBool true)]) "author" WithAuthorization.fresh =
  Some (Return (JObj [("email", JBool true); ("phone", JBool false)]),
        WithAuthorization.fresh).
Proof.
  rewrite (nested_policy_walk Samples.gql NestedCases.authorEmail "get" "post" 1
             (JObj [("author", NestedCases.contact)])
             (WithAuthorization.run Samples.post_found
                (JObj [("author", NestedCases.contact)]) "{ id }")
             "{ id }" Samples.ctx NestedCases.contact "author"
             [("email", JBool true)] WithAuthorization.fresh).
  - reflexivity.
  - discriminate.
  - reflexivity.
  - reflexivity.
  - reflexivity.
  - intros key v [[= <- <-]|[[= <- <-]|[]]];
      (split; [reflexivity|split; [reflexivity|discriminate]]).
Defined.
